(** * TargetTowers: the puzzle generator and the click state machine of
    [web/script.js], embedded and verified.

    Numbers of the script are modelled exactly: integers as [Z] (or [nat]
    for loop counters and array indices), the results of [/] and of
    [Math.random()] as rationals [Q].  The rounding of IEEE doubles is not
    modelled.  The script's constants [COLUMNS = 3] and [HEIGHT = 4] are
    parameters here, so that what is proved holds for every size of board.
    The page is left out, and of the console only the text that
    [generatePythonCode] builds for it is modelled. *)

From Stdlib Require Import ZArith QArith Qround Qminmax Qfield Lia Lqa.
From Stdlib Require Import HexadecimalString HexString Ascii.
From stdpp Require Import base tactics option list strings pretty.

Close Scope Q_scope.

(** ** Math.random and the code that draws from it *)

(** A value of [Math.random()]: a number in [0, 1). *)
Record unit_interval := UnitInterval {
  sample :> Q;
  sample_nonneg : (0 <= sample)%Q;
  sample_below_one : (sample < 1)%Q
}.

(** Code that calls [Math.random()] threads the number of calls made so
    far; the n-th call returns what the random source holds at n. *)
Definition Rand (A : Type) : Type := nat -> A * nat.

Definition rand_ret {A} (a : A) : Rand A := fun calls => (a, calls).

Definition rand_bind {A B} (m : Rand A) (k : A -> Rand B) : Rand B :=
  fun calls => let (a, calls') := m calls in k a calls'.

Notation "'let*' x ':=' m 'in' k" := (rand_bind m (fun x => k))
  (at level 10, x name, m at level 100, k at level 200, only parsing).

(** What a call of the script ends with. *)
Inductive error :=
  | Error (message : string)   (* throw new Error(message) *)
  | RangeError                 (* Array(n) with n < 0 *)
  | TypeError                  (* spreading or indexing undefined or null *)
  | StackOverflow.             (* no frame left for a call *)

Inductive completion (A : Type) :=
  | Return (a : A)
  | ReturnUndefined            (* the body ends without a return *)
  | Throw (e : error).
Arguments Return {A} a.
Arguments ReturnUndefined {A}.
Arguments Throw {A} e.

Definition Zsum (l : list Z) : Z := foldr Z.add 0%Z l.

(** [x / y > z] for numbers holding integers.  Division by zero gives
    [Infinity], [-Infinity] or [NaN]; only [Infinity] is greater than [z]. *)
Definition div_gt (x y z : Z) : bool :=
  if (y =? 0)%Z then (0 <? x)%Z
  else negb (Qle_bool (inject_Z x / inject_Z y) (inject_Z z)).

(** [[array[i], array[j]] = [array[j], array[i]]]: both reads, then both
    writes.  [shuffle] only calls it with [j < i < array.length]; a read out
    of range would give [undefined], which a list of [A] cannot hold, and the
    array is then left as it is. *)
Definition swap {A} (array : list A) (i j : nat) : list A :=
  match array !! j, array !! i with
  | Some aj, Some ai => <[j:=ai]> (<[i:=aj]> array)
  | _, _ => array
  end.

(** A for-of loop whose body is [try { return [x, ...attempt(x)] } catch
    (error) { continue }]: spreading [undefined] throws too, so only a
    returned array leaves the loop. *)
Fixpoint try_each (attempt : Z -> Rand (completion (list Z)))
    (possibilities : list Z) : Rand (completion (list Z)) :=
  match possibilities with
  | [] => rand_ret ReturnUndefined
  | x :: rest =>
      let* r := attempt x in
      match r with
      | Return others => rand_ret (Return (x :: others))
      | ReturnUndefined | Throw _ => try_each attempt rest
      end
  end.

(** The integers from 0 below [n], as [Array.from(Array(n).keys())] lists
    them. *)
Definition keys (n : Z) : list Z := Z.of_nat <$> seq 0 (Z.to_nat n).

(** ** Colours *)

(** [x % m] on numbers: the quotient is truncated, so the remainder has the
    sign of [x]. *)
Definition Qtrunc (x : Q) : Z := Z.quot (Qnum x) (Zpos (Qden x)).
Definition Qrem (x m : Q) : Q := (x - m * inject_Z (Qtrunc (x / m)))%Q.

(** [Math.round(x)]: the nearest integer, halves upwards. *)
Definition Math_round (x : Q) : Z := Qfloor (x + (1 # 2)).

(** [n.toString(16)] for an integer [n]. *)
Definition toString16 (n : Z) : string := NilZero.string_of_int (Z.to_hex_int n).

(** [s.padStart(targetLength, '0')] *)
Definition padStart0 (targetLength : nat) (s : string) : string :=
  String.concat "" (replicate (targetLength - String.length s) "0") +:+ s.

(** [hslToHex(h, s, l)] *)
Definition hslToHex (h s l : Q) : string :=
  let l := (l / 100)%Q in
  let a := (s * Qmin l (1 - l) / 100)%Q in
  let f := fun n : Q =>
    let k := Qrem (n + h / 30) 12 in
    let color := (l - a * Qmax (Qmin (Qmin (k - 3) (9 - k)) 1) (-1))%Q in
    padStart0 2 (toString16 (Math_round (255 * color))) in
  "#" +:+ f 0%Q +:+ f 8%Q +:+ f 4%Q.

(** ** Boards *)

(** What a slot of a column holds: a colour or [null]; reading past the end
    of an array gives [undefined]. *)
Inductive value :=
  | Undefined
  | Null
  | Color (hex : string).

Global Instance value_eq_dec : EqDecision value.
Proof. solve_decision. Defined.

Abbreviation board := (list (list value)).

(** [v === null] *)
Definition is_null (v : value) : bool :=
  match v with Null => true | _ => false end.

(** [array[i]] *)
Definition array_get (array : list value) (i : Z) : value :=
  if (i <? 0)%Z then Undefined else default Undefined (array !! Z.to_nat i).

(** [array[i] = v]: an index past the end extends the array, the slots in
    between reading as [undefined]; a negative [i] names a property, not an
    element. *)
Definition array_set (array : list value) (i : Z) (v : value) : list value :=
  if (i <? 0)%Z then array
  else if decide (Z.to_nat i < length array) then <[Z.to_nat i:=v]> array
  else array ++ replicate (Z.to_nat i - length array) Undefined ++ [v].

(** [shuffleElements[colorIndex]] *)
Definition element (shuffleElements : list string) (colorIndex : nat) : value :=
  match shuffleElements !! colorIndex with
  | Some c => Color c
  | None => Undefined
  end.

(** The inner loop of [initializeState], [remaining] rounds from row [j]:
    it pushes a colour while [j < columnLength] and [null] above. *)
Fixpoint fill_column (shuffleElements : list string) (columnLength : Z)
    (remaining j : nat) (column : list value) (colorIndex : nat)
    : list value * nat :=
  match remaining with
  | O => (column, colorIndex)
  | S remaining' =>
      let isColoredPiece := (Z.of_nat j <? columnLength)%Z in
      if isColoredPiece
      then fill_column shuffleElements columnLength remaining' (S j)
             (column ++ [element shuffleElements colorIndex]) (S colorIndex)
      else fill_column shuffleElements columnLength remaining' (S j)
             (column ++ [Null]) colorIndex
  end.

(** The outer loop of [initializeState] over [ballsInColumns]. *)
Fixpoint fill_columns (shuffleElements : list string) (height : Z)
    (ballsInColumns : list Z) (initialState : board) (colorIndex : nat)
    : board :=
  match ballsInColumns with
  | [] => initialState
  | columnLength :: rest =>
      let (column, colorIndex') :=
        fill_column shuffleElements columnLength (Z.to_nat height) 0 [] colorIndex in
      fill_columns shuffleElements height rest (initialState ++ [column]) colorIndex'
  end.

(** The array that the loop of [initializeColors] fills: one colour pushed
    for each [i] from 0 below [colorsLength]. *)
Definition wheel (colorsLength : Z) : list string :=
  (fun i => hslToHex
     (Qrem (inject_Z i * (360 / inject_Z colorsLength)) 360) 100 50)
  <$> keys colorsLength.

Section RandomSource.

Variable Math_random : nat -> unit_interval.

(** [Math.floor(Math.random() * n)] *)
Definition random_floor (n : Z) : Rand Z := fun calls =>
  (Qfloor (Math_random calls * inject_Z n), S calls).

(** [randomIntFromInterval(min, max)] *)
Definition randomIntFromInterval (min max : Q) : Rand Z := fun calls =>
  (Qfloor (Math_random calls * (max - min + 1) + min), S calls).

(** [initNumberOfBalls(columns, height)] *)
Definition initNumberOfBalls (columns height : Z) : Rand Z :=
  let minBalls := inject_Z (columns * 2) in
  let maxBalls := (inject_Z (columns * height) / 2 + 1)%Q in
  randomIntFromInterval minBalls maxBalls.

(** The loop of [shuffle], [remaining] iterations from [currentIndex]. *)
Fixpoint shuffle_from {A} (remaining currentIndex : nat) (array : list A)
    : Rand (list A) :=
  match remaining with
  | O => rand_ret array
  | S remaining' =>
      let* randomIndex := random_floor (Z.of_nat currentIndex) in
      shuffle_from remaining' (S currentIndex)
        (swap array currentIndex (Z.to_nat randomIndex))
  end.

(** [shuffle(array)]: [currentIndex] runs from 1 while it is below
    [array.length]. *)
Definition shuffle {A} (array : list A) : Rand (list A) :=
  shuffle_from (length array - 1) 1 array.

(** [chooseBallsInColumn(columns, balls, height)], with [frames] call frames
    left on the stack. *)
Fixpoint chooseBallsInColumn (frames : nat) (columns balls height : Z)
    : Rand (completion (list Z)) :=
  match frames with
  | O => rand_ret (Throw StackOverflow)
  | S frames' =>
      if div_gt balls columns height
      then rand_ret (Throw (Error "Cannot hold all the balls"))
      else if (columns =? 1)%Z then rand_ret (Return [balls])
      else if (Z.min height balls + 1 <? 0)%Z then rand_ret (Throw RangeError)
      else
        let* possibilities := shuffle (keys (Z.min height balls + 1)) in
        try_each
          (fun firstColumnBalls =>
             chooseBallsInColumn frames' (columns - 1)
               (balls - firstColumnBalls) height)
          possibilities
  end.


(** [initializeState(elements, columns, height)]; [generatePythonCode] only
    writes to the console. *)
Definition initializeState (frames : nat) (elements : list string)
    (columns height : Z) : Rand (completion board) :=
  let* shuffleElements := shuffle elements in
  let* ballsInColumns :=
    chooseBallsInColumn frames columns (Z.of_nat (length elements)) height in
  match ballsInColumns with
  | Return ballsInColumns =>
      rand_ret (Return (fill_columns shuffleElements height ballsInColumns [] 0))
  | ReturnUndefined => rand_ret (Throw TypeError)  (* for (... of undefined) *)
  | Throw e => rand_ret (Throw e)
  end.


End RandomSource.

(** A random source that always answers 7/8, and one that always answers 0. *)
Definition seven_eighths : unit_interval.
Proof. refine (UnitInterval (7 # 8) _ _); [discriminate | reflexivity]. Defined.

Definition zero_sample : unit_interval.
Proof. refine (UnitInterval 0 _ _); [discriminate | reflexivity]. Defined.

(** ** Telling the colours of the wheel apart *)



Definition hex2 (n : Z) : string := padStart0 2 (toString16 n).

(** Reading hexadecimal digits back. *)
Definition unhex (s : string) : Z := Z.of_N (HexString.Raw.to_N s 0).



(** ** The click state machine *)

(** [selectedPiece]'s object [{ column, row }] *)
Record piece := Piece { column : nat; row : Z }.

(** The variables the click handlers share: [state] is written in place,
    [referenceState] never, [selectedPiece] is [null] ([None]) or a piece.
    Every column is an array of its own, created by [initializeState], so a
    write to one slot changes no other column and neither board shares a
    column with the other. *)
Record game := Game {
  state : board;
  referenceState : board;
  selectedPiece : option piece
}.

(** A handler runs on the shared variables and either completes with a
    value or throws; both leave the variables as they are at that moment. *)
Inductive outcome (A : Type) :=
  | Done (a : A) (g : game)
  | Raise (e : error) (g : game).
Arguments Done {A} a g.
Arguments Raise {A} e g.

Definition Exec (A : Type) : Type := game -> outcome A.

Definition exec_ret {A} (a : A) : Exec A := fun g => Done a g.

Definition exec_bind {A B} (m : Exec A) (k : A -> Exec B) : Exec B :=
  fun g => match m g with
           | Done a g' => k a g'
           | Raise e g' => Raise e g'
           end.

Notation "'let!' x ':=' m 'in' k" := (exec_bind m (fun x => k))
  (at level 10, x name, m at level 100, k at level 200, only parsing).

(** [b[columnIndex][i]], for [b] one of the two boards: indexing
    [undefined] throws. *)
Definition read_cell (b : game -> board) (columnIndex : nat) (i : Z) : Exec value :=
  fun g => match b g !! columnIndex with
           | None => Raise TypeError g
           | Some column => Done (array_get column i) g
           end.

(** [state[columnIndex][i] = v] *)
Definition write_cell (columnIndex : nat) (i : Z) (v : value) : Exec unit :=
  fun g => match state g !! columnIndex with
           | None => Raise TypeError g
           | Some column =>
               Done tt (Game (<[columnIndex:=array_set column i v]> (state g))
                             (referenceState g) (selectedPiece g))
           end.

(** [selectedPiece = p] *)
Definition set_selectedPiece (p : option piece) : Exec unit :=
  fun g => Done tt (Game (state g) (referenceState g) p).

(** [selectedPiece.column] and [selectedPiece.row]: a property of [null]
    throws. *)
Definition selected : Exec piece :=
  fun g => match selectedPiece g with
           | None => Raise TypeError g
           | Some p => Done p g
           end.

Section Game.

Variables COLUMNS HEIGHT : nat.

(** The loop of [findEmptyRow], [remaining] rounds from row [i]. *)
Fixpoint findEmptyRow_from (columnIndex remaining i : nat) : Exec Z :=
  match remaining with
  | O => exec_ret (-1)%Z
  | S remaining' =>
      let! v := read_cell state columnIndex (Z.of_nat i) in
      if is_null v then exec_ret (Z.of_nat i)
      else findEmptyRow_from columnIndex remaining' (S i)
  end.

(** [findEmptyRow(columnIndex)]: [i] runs from 0 while [i <= HEIGHT]. *)
Definition findEmptyRow (columnIndex : nat) : Exec Z :=
  findEmptyRow_from columnIndex (S HEIGHT) 0.

(** The loop of [findTopPiece] over the rows below [n], downwards. *)
Fixpoint findTopPiece_below (columnIndex n : nat) : Exec Z :=
  match n with
  | O => exec_ret (-1)%Z
  | S i =>
      let! v := read_cell state columnIndex (Z.of_nat i) in
      if negb (is_null v) then exec_ret (Z.of_nat i)
      else findTopPiece_below columnIndex i
  end.

(** [findTopPiece(columnIndex)]: [i] runs from [HEIGHT - 1] down to 0. *)
Definition findTopPiece (columnIndex : nat) : Exec Z :=
  findTopPiece_below columnIndex HEIGHT.

(** [handleFirstClick(columnIndex)] *)
Definition handleFirstClick (columnIndex : nat) : Exec unit :=
  let! rowTopPiece := findTopPiece columnIndex in
  if (rowTopPiece =? -1)%Z then set_selectedPiece None
  else set_selectedPiece (Some (Piece columnIndex rowTopPiece)).

(** [handleSecondClick(columnIndex)]; [generatePythonCode] only writes to
    the console. *)
Definition handleSecondClick (columnIndex : nat) : Exec unit :=
  let targetColumn := columnIndex in
  let! p := selected in
  if decide (targetColumn = column p) then set_selectedPiece None
  else
    let! targetRow := findEmptyRow targetColumn in
    let! _ := (if negb (targetRow =? -1)%Z then
       let! p := selected in
       let! moved := read_cell state (column p) (row p) in
       let! _ := write_cell targetColumn targetRow moved in
       let! p := selected in
       write_cell (column p) (row p) Null
     else exec_ret tt) in
    set_selectedPiece None.

(** The inner loop of [haveWon] on column [i], [remaining] rounds from row
    [j]: [false] when a slot differs. *)
Fixpoint haveWon_rows (i remaining j : nat) : Exec bool :=
  match remaining with
  | O => exec_ret true
  | S remaining' =>
      let! v := read_cell state i (Z.of_nat j) in
      let! w := read_cell referenceState i (Z.of_nat j) in
      if bool_decide (v <> w) then exec_ret false
      else haveWon_rows i remaining' (S j)
  end.

(** The outer loop of [haveWon], [remaining] rounds from column [i]. *)
Fixpoint haveWon_columns (remaining i : nat) : Exec bool :=
  match remaining with
  | O => exec_ret true
  | S remaining' =>
      let! same := haveWon_rows i HEIGHT 0 in
      if same then haveWon_columns remaining' (S i) else exec_ret false
  end.

(** [haveWon()] *)
Definition haveWon : Exec bool := haveWon_columns COLUMNS 0.

(** [handleClick(columnIndex)]; [renderGame] repaints the page from the
    variables and is not modelled. *)
Definition handleClick (columnIndex : nat) : Exec unit :=
  fun g => match selectedPiece g with
           | None => handleFirstClick columnIndex g
           | Some _ => handleSecondClick columnIndex g
           end.

(** A sequence of clicks, one [handleClick] after the other. *)
Fixpoint handleClicks (columnIndexes : list nat) : Exec unit :=
  match columnIndexes with
  | [] => exec_ret tt
  | columnIndex :: rest => let! _ := handleClick columnIndex in handleClicks rest
  end.

End Game.

(** ** Vocabulary of the properties *)

(** A partition of [balls] over [columns] columns of [height] slots. *)
Definition is_partition (columns balls height : Z) (l : list Z) : Prop :=
  Z.of_nat (length l) = columns
  /\ Forall (fun n => (0 <= n <= height)%Z) l
  /\ Zsum l = balls.

(** The colours in a column, bottom first, and on a board. *)
Definition color_of (v : value) : option string :=
  match v with Color c => Some c | Undefined | Null => None end.

Definition colors (column : list value) : list string := omap color_of column.

Definition board_colors (b : board) : list string := b ≫= colors.

(** The slots of a column that are filled, that is, not [null]. *)
Definition count_filled (column : list value) : nat :=
  length (filter (fun v => v <> Null) column).

(** Row [j] of column [i], when the board has a column [i]. *)
Definition slot (b : board) (i j : nat) : option value :=
  (fun column => array_get column (Z.of_nat j)) <$> b !! i.

(** A column of [HEIGHT] slots in which [balls] rest on the bottom, one on
    the other, with [null] above. *)
Definition tower (HEIGHT : nat) (balls : list string) : list value :=
  (Color <$> balls) ++ replicate (HEIGHT - length balls) Null.

Definition resting (HEIGHT : nat) (column : list value) : Prop :=
  exists balls, length balls <= HEIGHT /\ column = tower HEIGHT balls.

(** The selected piece is the topmost ball of its column. *)
Definition selection_ok (HEIGHT : nat) (g : game) : Prop :=
  match selectedPiece g with
  | None => True
  | Some p =>
      exists balls x,
        state g !! column p = Some (tower HEIGHT (balls ++ [x]))
        /\ length balls < HEIGHT
        /\ row p = Z.of_nat (length balls)
  end.

(** The filled slots of a column are the rows below some [n], each holding
    a colour, and the rows from [n] up hold [null]. *)
Definition filled_run (HEIGHT : nat) (n : nat) (column : list value) : Prop :=
  n <= HEIGHT /\ length column = HEIGHT
  /\ (forall j, j < n -> exists c, column !! j = Some (Color c))
  /\ (forall j, n <= j < HEIGHT -> column !! j = Some Null).

(** No filled slot lies above an empty one. *)
Definition no_ball_above_empty (column : list value) : Prop :=
  forall i j v, i < j -> column !! i = Some Null -> column !! j = Some v -> v = Null.

(** What a click on [columnIndex] does to the board.  A first click leaves
    it as it is.  A second click clears the selection; on the column of the
    selected piece, or on a full column, the board is as it was; on another
    column the topmost ball [x] of the selected column goes on top of the
    balls of the clicked one. *)
Definition click_effect (HEIGHT : nat) (g : game) (columnIndex : nat)
    (g' : game) : Prop :=
  match selectedPiece g with
  | None => state g' = state g
  | Some p =>
      selectedPiece g' = None /\
      if decide (columnIndex = column p) then state g' = state g
      else exists source x target,
        state g !! column p = Some (tower HEIGHT (source ++ [x]))
        /\ row p = Z.of_nat (length source)
        /\ state g !! columnIndex = Some (tower HEIGHT target)
        /\ length target <= HEIGHT
        /\ state g' =
             if decide (length target < HEIGHT)
             then <[column p:=tower HEIGHT source]>
                    (<[columnIndex:=tower HEIGHT (target ++ [x])]> (state g))
             else state g
  end.

(** What holds of the variables between two clicks. *)
Definition game_ok (COLUMNS HEIGHT : nat) (g : game) : Prop :=
  length (state g) = COLUMNS
  /\ Forall (resting HEIGHT) (state g)
  /\ selection_ok HEIGHT g.

(** ** A game to try the properties on *)

(** Six colours, and the board of 3 columns of height 4 that
    [initializeState] makes of them when [Math.random()] always answers 0. *)
Definition six_colors : list string := ["a"; "b"; "c"; "d"; "e"; "f"].

Definition dealt_board : board :=
  [ [Color "f"; Color "a"; Color "b"; Color "c"];
    [Color "d"; Color "e"; Null; Null];
    [Null; Null; Null; Null] ].

Definition dealt_game : game := Game dealt_board dealt_board None.

(** The same game after a click on column 1, which selects the ball "e". *)
Definition picked_game : game :=
  Game dealt_board dealt_board (Some (Piece 1 1)).

(** ** The games the page can be in *)

(** A board that [initializeState] returns for [elements]. *)
Definition dealt (COLUMNS HEIGHT : nat) (elements : list string) (b : board) : Prop :=
  exists Math_random frames calls calls',
    initializeState Math_random frames elements (Z.of_nat COLUMNS) (Z.of_nat HEIGHT) calls
      = (Return b, calls').

(** The variables as a click can find them: both boards dealt from the same
    colours, as the first lines of the script do, no piece selected, and
    then clicks on columns of the board. *)
Definition in_play (COLUMNS HEIGHT : nat) (g : game) : Prop :=
  exists elements playable columnIndexes,
    dealt COLUMNS HEIGHT elements playable
    /\ dealt COLUMNS HEIGHT elements (referenceState g)
    /\ Forall (fun c => c < COLUMNS) columnIndexes
    /\ handleClicks HEIGHT columnIndexes (Game playable (referenceState g) None)
       = Done tt g.

(** The variables a handler leaves, whether it completes or throws. *)
Definition variables_after {A} (o : outcome A) : game :=
  match o with Done _ g | Raise _ g => g end.

(** A handler that writes neither [referenceState] nor the number of columns
    of [state]. *)
Definition keeps_reference {A} (m : Exec A) : Prop :=
  forall g,
    referenceState (variables_after (m g)) = referenceState g
    /\ length (state (variables_after (m g))) = length (state g).

(** ** The text for the console *)

(** The loop of [elements.indexOf(c)] from index [i] on: the first index
    that holds [c], or -1. *)
Fixpoint indexOf_from (elements : list string) (i : nat) (c : string) : Z :=
  match elements with
  | [] => (-1)%Z
  | e :: rest => if decide (e = c) then Z.of_nat i else indexOf_from rest (S i) c
  end.

(** [elements.indexOf(value)] on an array of colours: [null] and
    [undefined] are not among them. *)
Definition indexOf (elements : list string) (v : value) : Z :=
  match v with
  | Color c => indexOf_from elements 0 c
  | Undefined | Null => (-1)%Z
  end.

(** The separator of [codeLines.join]: a comma, a line feed and 23 spaces. *)
Definition line_separator : string :=
  String ","%char (String "010"%char "                       ").

(** [generatePythonCode(state, elements)]: the text [pythonCode] that it
    writes to the console.  In a template and in [join] a number is
    printed in decimal. *)
Definition generatePythonCode (state : board) (elements : list string) : string :=
  let codeLines :=
    (fun column =>
       "[" +:+ String.concat ", "
                 ((fun value =>
                     if is_null value || (indexOf elements value =? -1)%Z
                     then "None" else pretty (indexOf elements value))
                  <$> column)
           +:+ "]")
    <$> state in
  let pythonCode := "State([" +:+ String.concat line_separator codeLines +:+ "])" in
  pythonCode.

(** The code of one slot and the line of one column, as the two arrow
    functions of [generatePythonCode] compute them. *)
Definition code_of (elements : list string) (value : value) : string :=
  if is_null value || (indexOf elements value =? -1)%Z
  then "None" else pretty (indexOf elements value).

Definition code_line (codes : list string) : string :=
  "[" +:+ String.concat ", " codes +:+ "]".

(** A text without comma and closing bracket, a text of decimal digits, and
    a code: a text of the first kind that is not empty. *)
Fixpoint plain (s : string) : bool :=
  match s with
  | EmptyString => true
  | String c s =>
      negb (Ascii.eqb c ","%char) && negb (Ascii.eqb c "]"%char) && plain s
  end.

Fixpoint digits (s : string) : bool :=
  match s with
  | EmptyString => true
  | String c s => (48 <=? nat_of_ascii c) && (nat_of_ascii c <=? 57) && digits s
  end.

Definition token (t : string) : Prop := plain t = true /\ t <> "".

(** A slot that holds [null] or one of the [elements]. *)
Definition in_colors (elements : list string) (v : value) : Prop :=
  v = Null \/ exists c, v = Color c /\ c ∈ elements.

(** * Properties *)

(** ** Properties of the random source *)

Section RandomSourceFacts.

Variable Math_random : nat -> unit_interval.

Lemma random_floor_calls n calls : (random_floor Math_random n calls).2 = S calls.
Proof. reflexivity. Qed.

(** [Math.floor(Math.random() * n)] lies in [0, n - 1]: it never reaches [n]. *)
Lemma random_floor_range n calls :
  (0 < n)%Z -> (0 <= (random_floor Math_random n calls).1 < n)%Z.
Proof.
  intros Hn. cbn [random_floor fst].
  destruct (Math_random calls) as [r Hr0 Hr1]; cbn [sample].
  assert (Hn' : (0 < inject_Z n)%Q)
    by (change (inject_Z 0 < inject_Z n)%Q; rewrite <- Zlt_Qlt; exact Hn).
  split.
  - change 0%Z with (Qfloor 0). apply Qfloor_resp_le.
    apply Qmult_le_0_compat; [exact Hr0 | apply Qlt_le_weak, Hn'].
  - rewrite Zlt_Qlt. eapply Qle_lt_trans; [apply Qfloor_le |].
    apply Qlt_le_trans with (1 * inject_Z n)%Q;
      [apply Qmult_lt_compat_r; assumption | rewrite Qmult_1_l; apply Qle_refl].
Qed.

(** *** shuffle *)

Lemma insert_swap_Permutation {A} (l : list A) j x y :
  l !! j = Some y -> y :: <[j:=x]> l ≡ₚ x :: l.
Proof.
  revert j; induction l as [|z l IH]; intros [|j] Hj; simplify_eq/=.
  - apply Permutation_swap.
  - rewrite (Permutation_swap z y), (IH _ Hj). apply Permutation_swap.
Qed.

Lemma swap_Permutation {A} (array : list A) i j : swap array i j ≡ₚ array.
Proof.
  unfold swap.
  destruct (array !! j) as [aj|] eqn:Hj; [|done].
  destruct (array !! i) as [ai|] eqn:Hi; [|done].
  destruct (decide (i = j)) as [->|Hne].
  - simplify_eq. rewrite !list_insert_id; [done.. |].
    by rewrite list_insert_id.
  - apply (Permutation_cons_inv (a := aj)).
    rewrite insert_swap_Permutation
      by (rewrite list_lookup_insert_ne by done; exact Hj).
    by rewrite (insert_swap_Permutation _ _ _ _ Hi).
Qed.

Lemma swap_length {A} (array : list A) i j : length (swap array i j) = length array.
Proof. apply Permutation_length, swap_Permutation. Qed.

Lemma shuffle_from_Permutation {A} remaining currentIndex (array : list A) calls :
  (shuffle_from Math_random remaining currentIndex array calls).1 ≡ₚ array.
Proof.
  revert currentIndex array calls.
  induction remaining as [|remaining IH]; intros currentIndex array calls; [done|].
  cbn [shuffle_from]. unfold rand_bind, random_floor at 1.
  rewrite IH. apply swap_Permutation.
Qed.

(** The output of [shuffle] is a rearrangement of its input. *)
Lemma shuffle_Permutation {A} (array : list A) calls :
  (shuffle Math_random array calls).1 ≡ₚ array.
Proof. apply shuffle_from_Permutation. Qed.

Lemma shuffle_length {A} (array : list A) calls :
  length (shuffle Math_random array calls).1 = length array.
Proof. apply Permutation_length, shuffle_Permutation. Qed.

Lemma swap_lookup_other {A} (array : list A) i j k :
  k <> i -> k <> j -> swap array i j !! k = array !! k.
Proof.
  intros Hi Hj. unfold swap.
  destruct (array !! j), (array !! i); [|done..].
  by rewrite !list_lookup_insert_ne.
Qed.

Lemma swap_lookup_current {A} (array : list A) i j :
  i < length array -> j < i -> swap array i j !! i = array !! j.
Proof.
  intros Hi Hj. unfold swap.
  destruct (lookup_lt_is_Some_2 array j ltac:(lia)) as [aj ->].
  destruct (lookup_lt_is_Some_2 array i Hi) as [ai ->].
  rewrite list_lookup_insert_ne by lia.
  by rewrite list_lookup_insert_eq.
Qed.

(** The last round of [shuffle] swaps the last element with an earlier one,
    and no later round brings it back. *)
Lemma shuffle_from_moves_last {A} remaining currentIndex (array : list A) calls :
  NoDup array -> 1 <= currentIndex -> 1 <= remaining ->
  currentIndex + remaining = length array ->
  (shuffle_from Math_random remaining currentIndex array calls).1
    !! (length array - 1)
  <> array !! (length array - 1).
Proof.
  revert currentIndex array calls.
  induction remaining as [|remaining IH]; intros currentIndex array calls;
    [lia|].
  intros Hnodup Hc _ Hlen. cbn [shuffle_from]. unfold rand_bind.
  pose proof (random_floor_range (Z.of_nat currentIndex) calls ltac:(lia)) as Hj.
  destruct (random_floor Math_random (Z.of_nat currentIndex) calls)
    as [randomIndex calls1]. cbn [fst] in Hj.
  set (j := Z.to_nat randomIndex). assert (Hj' : j < currentIndex) by lia.
  destruct remaining as [|remaining].
  - cbn [shuffle_from rand_ret fst].
    replace (length array - 1) with currentIndex by lia.
    rewrite swap_lookup_current by lia.
    destruct (lookup_lt_is_Some_2 array j ltac:(lia)) as [aj Haj].
    destruct (lookup_lt_is_Some_2 array currentIndex ltac:(lia)) as [ai Hai].
    rewrite Haj, Hai. intros [= ->].
    pose proof (NoDup_lookup _ _ _ _ Hnodup Haj Hai). lia.
  - pose proof (swap_length array currentIndex j) as Hswap.
    pose proof (swap_lookup_other array currentIndex j (length array - 1)
                  ltac:(lia) ltac:(lia)) as Hlast.
    rewrite <- Hlast, <- Hswap.
    apply IH; [by rewrite swap_Permutation | lia | lia | lia].
Qed.

(** [shuffle] never returns an array of two or more different elements as
    it was. *)
Lemma shuffle_never_identity {A} (array : list A) calls :
  NoDup array -> 2 <= length array ->
  (shuffle Math_random array calls).1 <> array.
Proof.
  intros Hnodup Hlen Heq.
  eapply (shuffle_from_moves_last (length array - 1) 1 array calls);
    [done | lia | lia | lia |].
  unfold shuffle in Heq. by rewrite Heq.
Qed.

(** *** chooseBallsInColumn *)

Lemma Qdiv_le_Z (x y z : Z) :
  (0 < y)%Z -> (inject_Z x / inject_Z y <= inject_Z z)%Q <-> (x <= z * y)%Z.
Proof.
  intros Hy. destruct y as [|p|p]; [lia | | lia].
  unfold Qle, Qdiv, Qmult, Qinv, inject_Z; cbn. lia.
Qed.

Lemma div_gt_pos x y z :
  (0 < y)%Z -> div_gt x y z = true <-> (z * y < x)%Z.
Proof.
  intros Hy. unfold div_gt.
  destruct (Z.eqb_spec y 0) as [|_]; [lia|].
  rewrite negb_true_iff, <- not_true_iff_false, Qle_bool_iff, Qdiv_le_Z by done.
  lia.
Qed.

Lemma div_gt_pos_false x y z :
  (0 < y)%Z -> div_gt x y z = false <-> (x <= z * y)%Z.
Proof.
  intros Hy. rewrite <- not_true_iff_false, div_gt_pos by done. lia.
Qed.

Lemma elem_of_keys n k : k ∈ keys n <-> (0 <= k < n)%Z.
Proof.
  unfold keys. rewrite list_elem_of_fmap. split.
  - intros (i & -> & Hi). apply elem_of_seq in Hi. lia.
  - intros Hk. exists (Z.to_nat k). rewrite elem_of_seq. lia.
Qed.

(** The retry loop returns as soon as an attempt returns, and some attempt
    does when a candidate is [good]. *)
Lemma try_each_finds (good : Z -> Prop) (Q : Z -> list Z -> Prop) attempt possibilities :
  (forall x, good x \/ ~ good x) ->
  (forall x calls, x ∈ possibilities -> good x ->
     exists l calls', attempt x calls = (Return l, calls') /\ Q x l) ->
  (forall x calls, x ∈ possibilities -> ~ good x ->
     exists e calls', attempt x calls = (Throw e, calls')) ->
  (exists x, x ∈ possibilities /\ good x) ->
  forall calls, exists x l calls',
    try_each attempt possibilities calls = (Return (x :: l), calls')
    /\ x ∈ possibilities /\ Q x l.
Proof.
  intros Hdec.
  induction possibilities as [|x rest IH]; intros Hgood Hbad (x0 & Hx0 & Hg) calls.
  { by apply elem_of_nil in Hx0. }
  cbn [try_each]. unfold rand_bind.
  destruct (Hdec x) as [Hx|Hx].
  - destruct (Hgood x calls) as (l & calls' & -> & HQ); [left | done |].
    exists x, l, calls'. split_and!; [done | left | done].
  - destruct (Hbad x calls) as (e & calls' & ->); [left | done |].
    destruct (IH) with (calls := calls') as (y & l & calls'' & -> & Hy & HQ).
    + intros; apply Hgood; [by right | done].
    + intros; apply Hbad; [by right | done].
    + exists x0. split; [|done].
      apply elem_of_cons in Hx0 as [->|]; [contradiction | done].
    + exists y, l, calls''. split_and!; [done | by right | done].
Qed.

Lemma chooseBallsInColumn_feasible frames columns balls height calls :
  (1 <= columns)%Z -> (0 <= height)%Z -> (0 <= balls <= height * columns)%Z ->
  Z.to_nat columns <= frames ->
  exists l calls',
    chooseBallsInColumn Math_random frames columns balls height calls
      = (Return l, calls')
    /\ is_partition columns balls height l.
Proof.
  revert columns balls calls.
  induction frames as [|frames IH]; intros columns balls calls Hc Hh Hb Hf; [lia|].
  cbn [chooseBallsInColumn].
  rewrite (proj2 (div_gt_pos_false balls columns height ltac:(lia))) by lia.
  destruct (Z.eqb_spec columns 1) as [->|Hc1].
  { eexists _, _. split; [reflexivity|].
    split_and!; [done | repeat constructor; lia | cbn; lia]. }
  destruct (Z.ltb_spec (Z.min height balls + 1) 0) as [|_]; [lia|].
  unfold rand_bind at 1.
  destruct (shuffle Math_random _ calls) as [possibilities calls1] eqn:Hs.
  assert (Hperm : possibilities ≡ₚ keys (Z.min height balls + 1)).
  { change possibilities with (possibilities, calls1).1.
    rewrite <- Hs. apply shuffle_Permutation. }
  assert (Hin : forall k, k ∈ possibilities <-> (0 <= k <= Z.min height balls)%Z).
  { intros k. rewrite Hperm, elem_of_keys. lia. }
  destruct (try_each_finds
    (fun k => (balls - k <= height * (columns - 1))%Z)
    (fun k l => (0 <= k <= height)%Z /\ is_partition (columns - 1) (balls - k) height l)
    (fun k => chooseBallsInColumn Math_random frames (columns - 1) (balls - k) height)
    possibilities) with (calls := calls1)
    as (k & l & calls' & -> & Hk & Hkh & Hlen & Hall & Hsum).
  - intros k. lia.
  - intros k calls2 Hk%Hin Hgood. cbn beta in Hgood.
    destruct (IH (columns - 1)%Z (balls - k)%Z calls2) as (l & calls' & -> & Hl);
      [lia.. |].
    exists l, calls'. cbn beta. split_and!; [done | lia.. | done].
  - intros k calls2 Hk%Hin Hbad. cbn beta in Hbad.
    destruct frames as [|frames']; [lia|]. cbn [chooseBallsInColumn].
    rewrite (proj2 (div_gt_pos (balls - k) (columns - 1) height ltac:(lia))) by lia.
    by eexists _, _.
  - exists (Z.min height balls). rewrite Hin. nia.
  - exists (k :: l), calls'. split; [done|].
    split_and!; [cbn [length]; lia | by constructor |].
    unfold Zsum in *. cbn [foldr]. lia.
Qed.

(** C1: with at least one column, no ball count below zero, a height of at
    least zero and [balls / columns <= height], [chooseBallsInColumn] returns,
    whatever the random source answers, an array of [columns] integers between
    0 and [height] whose sum is [balls] (given a stack of [columns] frames). *)
Theorem chooseBallsInColumn_returns_partition frames columns balls height calls :
  (1 <= columns)%Z -> (0 <= balls)%Z -> (0 <= height)%Z ->
  (inject_Z balls / inject_Z columns <= inject_Z height)%Q ->
  Z.to_nat columns <= frames ->
  exists partition calls',
    chooseBallsInColumn Math_random frames columns balls height calls
      = (Return partition, calls')
    /\ Z.of_nat (length partition) = columns
    /\ Forall (fun n => (0 <= n <= height)%Z) partition
    /\ Zsum partition = balls.
Proof.
  intros Hc Hb Hh Hq Hf.
  apply (proj1 (Qdiv_le_Z balls columns height ltac:(lia))) in Hq.
  apply chooseBallsInColumn_feasible; [done.. | lia | done].
Qed.

(** C3: with at least one column and [balls / columns > height], the first
    statement of [chooseBallsInColumn] throws the error "Cannot hold all the
    balls": nothing is returned and [Math.random] has not been called, so no
    candidate was tried. *)
Theorem chooseBallsInColumn_cannot_hold frames columns balls height calls :
  (1 <= columns)%Z ->
  (inject_Z height < inject_Z balls / inject_Z columns)%Q ->
  chooseBallsInColumn Math_random (S frames) columns balls height calls
    = (Throw (Error "Cannot hold all the balls"), calls).
Proof.
  intros Hc Hq. cbn [chooseBallsInColumn].
  rewrite (proj2 (div_gt_pos balls columns height ltac:(lia))); [done|].
  apply Qlt_not_le in Hq. apply Z.nle_gt. intros Hle. apply Hq.
  exact (proj2 (Qdiv_le_Z balls columns height ltac:(lia)) Hle).
Qed.

(** C4 (the code differs): [shuffle] draws [randomIndex] below
    [currentIndex], never equal to it, so an array of two elements is always
    returned swapped and never as it was. *)
Theorem shuffle_pair_always_swapped {A} (a b : A) calls :
  (shuffle Math_random [a; b] calls).1 = [b; a].
Proof.
  unfold shuffle. cbn [length Nat.sub shuffle_from]. unfold rand_bind.
  pose proof (random_floor_range 1 calls ltac:(lia)) as Hj.
  destruct (random_floor Math_random (Z.of_nat 1) calls) as [j calls'] eqn:Hr.
  change (Z.of_nat 1) with 1%Z in Hr. rewrite Hr in Hj. cbn [fst] in Hj.
  replace j with 0%Z by lia. reflexivity.
Qed.

End RandomSourceFacts.

(** ** Properties of the boards *)

Lemma array_get_lookup column (i : nat) v :
  column !! i = Some v -> array_get column (Z.of_nat i) = v.
Proof.
  intros Hi. unfold array_get.
  destruct (Z.ltb_spec (Z.of_nat i) 0) as [|_]; [lia|].
  by rewrite Nat2Z.id, Hi.
Qed.

Lemma array_get_past_end column (i : nat) :
  length column <= i -> array_get column (Z.of_nat i) = Undefined.
Proof.
  intros Hi. unfold array_get.
  destruct (Z.ltb_spec (Z.of_nat i) 0) as [|_]; [done|].
  by rewrite Nat2Z.id, lookup_ge_None_2.
Qed.

Lemma array_set_middle below v above w :
  array_set (below ++ v :: above) (Z.of_nat (length below)) w = below ++ w :: above.
Proof.
  unfold array_set.
  destruct (Z.ltb_spec (Z.of_nat (length below)) 0) as [|_]; [lia|].
  rewrite Nat2Z.id, decide_True by (rewrite length_app; cbn; lia).
  by rewrite insert_app_r_alt, Nat.sub_diag by lia.
Qed.

Section TowerFacts.

Variable HEIGHT : nat.

Lemma tower_length balls : length balls <= HEIGHT -> length (tower HEIGHT balls) = HEIGHT.
Proof.
  intros Hb. unfold tower. rewrite length_app, length_fmap, length_replicate. lia.
Qed.

Lemma tower_lookup_ball balls i c :
  balls !! i = Some c -> tower HEIGHT balls !! i = Some (Color c).
Proof.
  intros Hi. unfold tower.
  rewrite lookup_app_l by (rewrite length_fmap; by eapply lookup_lt_Some).
  by rewrite list_lookup_fmap, Hi.
Qed.

Lemma tower_lookup_null balls i :
  length balls <= i < HEIGHT -> tower HEIGHT balls !! i = Some Null.
Proof.
  intros Hi. unfold tower.
  rewrite lookup_app_r by (rewrite length_fmap; lia).
  rewrite length_fmap. apply lookup_replicate_2. lia.
Qed.

Lemma tower_colors balls : colors (tower HEIGHT balls) = balls.
Proof.
  unfold colors, tower. rewrite omap_app.
  replace (omap color_of (replicate _ Null)) with (@nil string)
    by (induction (HEIGHT - length balls) as [|n IH]; [done | exact IH]).
  rewrite app_nil_r. induction balls as [|c balls IH]; [done|].
  cbn. by rewrite IH.
Qed.

Lemma tower_inj balls balls' : tower HEIGHT balls = tower HEIGHT balls' -> balls = balls'.
Proof. intros H%(f_equal colors). by rewrite !tower_colors in H. Qed.

(** Taking the topmost ball off, and putting a ball on top. *)
Lemma tower_take_top balls x :
  length balls < HEIGHT ->
  array_set (tower HEIGHT (balls ++ [x])) (Z.of_nat (length balls)) Null
    = tower HEIGHT balls.
Proof.
  intros Hb. unfold tower. rewrite fmap_app, <- app_assoc. cbn [fmap list_fmap app].
  rewrite <- (length_fmap Color balls) at 1. rewrite array_set_middle.
  rewrite length_app. cbn [length].
  replace (HEIGHT - length balls) with (S (HEIGHT - (length balls + 1))) by lia.
  done.
Qed.

Lemma tower_put_top balls x :
  length balls < HEIGHT ->
  array_set (tower HEIGHT balls) (Z.of_nat (length balls)) (Color x)
    = tower HEIGHT (balls ++ [x]).
Proof.
  intros Hb. unfold tower. rewrite fmap_app, <- app_assoc. cbn [fmap list_fmap app].
  replace (HEIGHT - length balls) with (S (HEIGHT - length (balls ++ [x])))
    by (rewrite length_app; cbn; lia).
  cbn [replicate]. rewrite <- (length_fmap Color balls) at 1.
  by rewrite array_set_middle.
Qed.

End TowerFacts.

(** ** Properties of the click handlers *)

Section GameFacts.

Variables COLUMNS HEIGHT : nat.

Lemma read_cell_state g columnIndex column i :
  state g !! columnIndex = Some column ->
  read_cell state columnIndex i g = Done (array_get column i) g.
Proof. intros H. unfold read_cell. by rewrite H. Qed.

Lemma write_cell_state g columnIndex column i v :
  state g !! columnIndex = Some column ->
  write_cell columnIndex i v g
    = Done tt (Game (<[columnIndex:=array_set column i v]> (state g))
                    (referenceState g) (selectedPiece g)).
Proof. intros H. unfold write_cell. by rewrite H. Qed.

(** [findTopPiece] on a tower: the row of its topmost ball, or -1. *)
Lemma findTopPiece_below_tower g columnIndex balls n :
  state g !! columnIndex = Some (tower HEIGHT balls) ->
  length balls <= HEIGHT -> n <= HEIGHT ->
  findTopPiece_below columnIndex n g
    = Done (Z.of_nat (n `min` length balls) - 1)%Z g.
Proof.
  intros Hc Hb. induction n as [|i IH]; intros Hn; [done|].
  cbn [findTopPiece_below]. unfold exec_bind.
  rewrite (read_cell_state _ _ _ _ Hc).
  destruct (decide (i < length balls)) as [Hi|Hi].
  - destruct (lookup_lt_is_Some_2 balls i Hi) as [c Hc'].
    rewrite (array_get_lookup _ _ _ (tower_lookup_ball HEIGHT _ _ _ Hc')).
    cbn [is_null negb]. unfold exec_ret. f_equal. lia.
  - rewrite (array_get_lookup _ _ Null) by (apply tower_lookup_null; lia).
    cbn [is_null negb]. rewrite IH by lia. f_equal. lia.
Qed.

Lemma findTopPiece_tower g columnIndex balls :
  state g !! columnIndex = Some (tower HEIGHT balls) ->
  length balls <= HEIGHT ->
  findTopPiece HEIGHT columnIndex g = Done (Z.of_nat (length balls) - 1)%Z g.
Proof.
  intros Hc Hb. unfold findTopPiece.
  rewrite (findTopPiece_below_tower _ _ _ _ Hc) by done. f_equal. lia.
Qed.

(** [findEmptyRow] on a tower: the row above its topmost ball, or -1 when
    the tower is full; the read at row [HEIGHT] gives [undefined]. *)
Lemma findEmptyRow_from_tower g columnIndex balls remaining i :
  state g !! columnIndex = Some (tower HEIGHT balls) ->
  length balls <= HEIGHT -> i <= length balls -> i + remaining = S HEIGHT ->
  findEmptyRow_from columnIndex remaining i g
    = Done (if decide (length balls < HEIGHT)
            then Z.of_nat (length balls) else (-1)%Z) g.
Proof.
  intros Hc Hb. revert i.
  induction remaining as [|remaining IH]; intros i Hi Hr; [lia|].
  cbn [findEmptyRow_from]. unfold exec_bind.
  rewrite (read_cell_state _ _ _ _ Hc).
  destruct (decide (i < length balls)) as [Hlt|Hge].
  - destruct (lookup_lt_is_Some_2 balls i Hlt) as [c Hc'].
    rewrite (array_get_lookup _ _ _ (tower_lookup_ball HEIGHT _ _ _ Hc')).
    cbn [is_null]. apply IH; lia.
  - assert (i = length balls) as -> by lia.
    case_decide as Hfull.
    + rewrite (array_get_lookup _ _ Null) by (apply tower_lookup_null; lia).
      done.
    + rewrite array_get_past_end by (rewrite tower_length; lia).
      cbn [is_null]. destruct remaining; [done | lia].
Qed.

Lemma findEmptyRow_tower g columnIndex balls :
  state g !! columnIndex = Some (tower HEIGHT balls) ->
  length balls <= HEIGHT ->
  findEmptyRow HEIGHT columnIndex g
    = Done (if decide (length balls < HEIGHT)
            then Z.of_nat (length balls) else (-1)%Z) g.
Proof. intros Hc Hb. apply findEmptyRow_from_tower; [done.. | lia | lia]. Qed.

Lemma handleFirstClick_ok g columnIndex :
  game_ok COLUMNS HEIGHT g -> columnIndex < COLUMNS ->
  exists g', handleFirstClick HEIGHT columnIndex g = Done tt g'
    /\ game_ok COLUMNS HEIGHT g'
    /\ state g' = state g /\ referenceState g' = referenceState g.
Proof.
  intros (Hlen & Hrest & _) Hc.
  destruct (lookup_lt_is_Some_2 (state g) columnIndex ltac:(lia)) as [col Hcol].
  destruct (Forall_lookup_1 _ _ _ _ Hrest Hcol) as (balls & Hb & ->).
  unfold handleFirstClick, exec_bind.
  rewrite (findTopPiece_tower _ _ _ Hcol Hb).
  destruct balls as [|x balls _] using rev_ind.
  - eexists. split; [reflexivity|]. by split_and!.
  - rewrite length_app in *. cbn [length] in *.
    destruct (Z.eqb_spec (Z.of_nat (length balls + 1) - 1) (-1)) as [|_]; [lia|].
    eexists. split; [reflexivity|].
    unfold game_ok, selection_ok. cbn [selectedPiece state column row].
    split_and!; try done.
    exists balls, x. split_and!; [done | lia | lia].
Qed.

Lemma handleSecondClick_ok g columnIndex p :
  game_ok COLUMNS HEIGHT g -> columnIndex < COLUMNS ->
  selectedPiece g = Some p ->
  exists g', handleSecondClick HEIGHT columnIndex g = Done tt g'
    /\ game_ok COLUMNS HEIGHT g'
    /\ click_effect HEIGHT g columnIndex g'
    /\ referenceState g' = referenceState g.
Proof.
  intros (Hlen & Hrest & Hsel) Hc Hp.
  unfold click_effect. unfold selection_ok in Hsel. rewrite Hp in *.
  destruct Hsel as (source & x & Hsrc & Hsource & Hrow).
  unfold handleSecondClick, exec_bind at 1, selected at 1. rewrite Hp.
  case_decide as Hsame.
  { eexists. split; [reflexivity|]. by split_and!. }
  destruct (lookup_lt_is_Some_2 (state g) columnIndex ltac:(lia)) as [col Hcol].
  destruct (Forall_lookup_1 _ _ _ _ Hrest Hcol) as (target & Htarget & ->).
  unfold exec_bind at 1. rewrite (findEmptyRow_tower _ _ _ Hcol Htarget).
  case_decide as Hroom.
  - destruct (Z.eqb_spec (Z.of_nat (length target)) (-1)) as [|_]; [lia|].
    cbn [negb]. unfold exec_bind, selected. rewrite Hp.
    rewrite (read_cell_state _ _ _ _ Hsrc), Hrow.
    rewrite (array_get_lookup _ _ (Color x))
      by (apply tower_lookup_ball, list_lookup_middle; done).
    rewrite (write_cell_state _ _ _ _ _ Hcol), tower_put_top by done.
    cbn [selectedPiece]. rewrite Hp, Hrow.
    rewrite (write_cell_state _ _ (tower HEIGHT (source ++ [x])))
      by (cbn [state]; rewrite list_lookup_insert_ne by done; exact Hsrc).
    rewrite tower_take_top by done.
    eexists. split; [reflexivity|].
    unfold game_ok, selection_ok. cbn [selectedPiece state referenceState].
    split_and!; try done.
    + by rewrite !length_insert.
    + apply Forall_insert; [apply Forall_insert; [done|] |].
      * exists (target ++ [x]). rewrite length_app. cbn. split; [lia | done].
      * exists source. split; [lia | done].
    + exists source, x, target. rewrite decide_True by done. by split_and!.
  - cbn [negb Z.eqb]. unfold exec_bind, exec_ret, set_selectedPiece.
    eexists. split; [reflexivity|].
    unfold game_ok, selection_ok. cbn [selectedPiece state referenceState].
    split_and!; try done.
    exists source, x, target. rewrite decide_False by done. by split_and!.
Qed.

(** A click on a column of the board completes, keeps what holds between
    clicks, and changes the board as [click_effect] says. *)
Lemma handleClick_ok g columnIndex :
  game_ok COLUMNS HEIGHT g -> columnIndex < COLUMNS ->
  exists g', handleClick HEIGHT columnIndex g = Done tt g'
    /\ game_ok COLUMNS HEIGHT g'
    /\ click_effect HEIGHT g columnIndex g'
    /\ referenceState g' = referenceState g.
Proof.
  intros Hok Hc. unfold handleClick.
  destruct (selectedPiece g) as [p|] eqn:Hp.
  - by apply (handleSecondClick_ok g columnIndex p).
  - destruct (handleFirstClick_ok g columnIndex Hok Hc) as (g' & ? & ? & ? & ?).
    exists g'. unfold click_effect. rewrite Hp. by split_and!.
Qed.

Lemma handleClicks_ok columnIndexes g :
  game_ok COLUMNS HEIGHT g -> Forall (fun c => c < COLUMNS) columnIndexes ->
  exists g', handleClicks HEIGHT columnIndexes g = Done tt g'
    /\ game_ok COLUMNS HEIGHT g'
    /\ referenceState g' = referenceState g.
Proof.
  intros Hok Hcs. revert g Hok.
  induction Hcs as [|c cs Hc _ IH]; intros g Hok; [by exists g|].
  destruct (handleClick_ok g c Hok Hc) as (g1 & Hg1 & Hok1 & _ & Href1).
  destruct (IH g1 Hok1) as (g' & Hg' & Hok' & Href').
  exists g'. cbn [handleClicks]. unfold exec_bind. rewrite Hg1.
  split_and!; [done.. | congruence].
Qed.

End GameFacts.

(** ** Properties of the construction of a board *)

Lemma try_each_inv attempt possibilities calls r calls' :
  try_each attempt possibilities calls = (Return r, calls') ->
  exists x l calls1,
    r = x :: l /\ x ∈ possibilities /\ attempt x calls1 = (Return l, calls').
Proof.
  revert calls. induction possibilities as [|x rest IH]; intros calls; [done|].
  cbn [try_each]. unfold rand_bind.
  destruct (attempt x calls) as [[l| |e] calls1] eqn:Hx.
  - intros [= <- <-]. exists x, l, calls. split_and!; [done | left | done].
  - intros (y & l & c & -> & Hy & Hl)%IH. exists y, l, c. split_and!; [done | by right | done].
  - intros (y & l & c & -> & Hy & Hl)%IH. exists y, l, c. split_and!; [done | by right | done].
Qed.

(** Whatever [chooseBallsInColumn] returns for a ball count of at least zero
    is a partition of the balls, and the height is then at least zero too. *)
Lemma chooseBallsInColumn_sound Math_random frames columns balls height calls l calls' :
  (0 <= balls)%Z ->
  chooseBallsInColumn Math_random frames columns balls height calls = (Return l, calls') ->
  is_partition columns balls height l /\ (0 <= height)%Z.
Proof.
  revert columns balls calls l calls'.
  induction frames as [|frames IH]; intros columns balls calls l calls' Hb; [done|].
  cbn [chooseBallsInColumn].
  destruct (div_gt balls columns height) eqn:Hdiv; [done|].
  destruct (Z.eqb_spec columns 1) as [->|Hc1].
  { intros [= <- <-]. apply div_gt_pos_false in Hdiv; [|lia].
    split; [|lia]. split_and!; [done | repeat constructor; lia |].
    unfold Zsum; cbn; lia. }
  destruct (Z.ltb_spec (Z.min height balls + 1) 0) as [|_]; [done|].
  unfold rand_bind at 1.
  destruct (shuffle Math_random _ calls) as [possibilities calls1] eqn:Hs.
  intros (k & l' & calls2 & -> & Hk & Hrec)%try_each_inv.
  assert (Hperm : possibilities ≡ₚ keys (Z.min height balls + 1)).
  { change possibilities with (possibilities, calls1).1.
    rewrite <- Hs. apply shuffle_Permutation. }
  rewrite Hperm, elem_of_keys in Hk.
  apply IH in Hrec as ((Hlen & Hall & Hsum) & Hh); [|lia].
  split; [|done]. split_and!.
  - cbn [length]. lia.
  - constructor; [lia | done].
  - unfold Zsum in *. cbn [foldr]. lia.
Qed.

Lemma Zsum_nonneg l : Forall (fun n => (0 <= n)%Z) l -> (0 <= Zsum l)%Z.
Proof. induction 1; unfold Zsum in *; cbn [foldr]; lia. Qed.

Lemma fill_column_spec shuffleElements (m : nat) remaining j column colorIndex :
  fill_column shuffleElements (Z.of_nat m) remaining j column colorIndex
  = (column
       ++ (element shuffleElements <$> seq colorIndex (remaining `min` (m - j)))
       ++ replicate (remaining - (m - j)) Null,
     colorIndex + remaining `min` (m - j)).
Proof.
  revert j column colorIndex.
  induction remaining as [|remaining IH]; intros j column colorIndex.
  { cbn. by rewrite app_nil_r, Nat.add_0_r. }
  cbn [fill_column]. destruct (Z.ltb_spec (Z.of_nat j) (Z.of_nat m)) as [Hj|Hj].
  - rewrite IH, <- app_assoc.
    replace (m - j) with (S (m - S j)) by lia.
    cbn [Nat.min seq fmap list_fmap Nat.sub app]. f_equal. lia.
  - rewrite IH, <- app_assoc.
    replace (m - j) with 0 by lia. replace (m - S j) with 0 by lia.
    rewrite !Nat.min_0_r, !Nat.sub_0_r. cbn. by rewrite Nat.add_0_r.
Qed.

Lemma element_seq shuffleElements colorIndex m :
  colorIndex + m <= length shuffleElements ->
  element shuffleElements <$> seq colorIndex m
  = Color <$> take m (drop colorIndex shuffleElements).
Proof.
  revert colorIndex. induction m as [|m IH]; intros colorIndex Hm; [done|].
  cbn [seq fmap list_fmap].
  destruct (lookup_lt_is_Some_2 shuffleElements colorIndex ltac:(lia)) as [c Hc].
  rewrite (drop_S _ _ _ Hc). cbn [take fmap list_fmap].
  unfold element at 1. rewrite Hc. f_equal. apply IH. lia.
Qed.

(** Each column built by the loops of [initializeState] is a tower of as
    many balls as [ballsInColumns] says. *)
Lemma fill_columns_spec shuffleElements (HEIGHT : nat) ballsInColumns initialState colorIndex :
  Forall (fun n => (0 <= n <= Z.of_nat HEIGHT)%Z) ballsInColumns ->
  (Z.of_nat colorIndex + Zsum ballsInColumns <= Z.of_nat (length shuffleElements))%Z ->
  exists columns,
    fill_columns shuffleElements (Z.of_nat HEIGHT) ballsInColumns initialState colorIndex
      = initialState ++ columns
    /\ Forall2 (fun column n => exists balls,
                  Z.of_nat (length balls) = n /\ length balls <= HEIGHT
                  /\ column = tower HEIGHT balls)
               columns ballsInColumns
    /\ board_colors columns
       = take (Z.to_nat (Zsum ballsInColumns)) (drop colorIndex shuffleElements).
Proof.
  intros Hall. revert initialState colorIndex.
  induction Hall as [|n rest Hn Hrest IH]; intros initialState colorIndex Hsum.
  { exists []. by rewrite app_nil_r. }
  unfold Zsum in Hsum. cbn [foldr] in Hsum. fold (Zsum rest) in Hsum.
  assert (0 <= Zsum rest)%Z
    by (apply Zsum_nonneg; eapply Forall_impl; [exact Hrest | cbn; lia]).
  cbn [fill_columns]. rewrite Nat2Z.id, <- (Z2Nat.id n) by lia.
  rewrite fill_column_spec, Nat.sub_0_r, app_nil_l.
  rewrite Nat.min_r by lia.
  rewrite element_seq by lia.
  destruct (IH (initialState ++
                  [(Color <$> take (Z.to_nat n) (drop colorIndex shuffleElements))
                     ++ replicate (HEIGHT - Z.to_nat n) Null])
               (colorIndex + Z.to_nat n)) as (columns & -> & Hcolumns & Hcolors); [lia|].
  assert (Hlen : length (take (Z.to_nat n) (drop colorIndex shuffleElements)) = Z.to_nat n)
    by (rewrite length_take, length_drop; lia).
  exists (tower HEIGHT (take (Z.to_nat n) (drop colorIndex shuffleElements)) :: columns).
  rewrite <- app_assoc. split_and!.
  - unfold tower. by rewrite Hlen.
  - constructor; [|done].
    exists (take (Z.to_nat n) (drop colorIndex shuffleElements)).
    split_and!; [lia.. | done].
  - unfold board_colors in *. cbn [mbind list_bind]. rewrite Hcolors, tower_colors.
    rewrite <- drop_drop, take_take_drop. f_equal.
    unfold Zsum. cbn [foldr]. fold (Zsum rest). lia.
Qed.

Lemma tower_filled_run HEIGHT balls :
  length balls <= HEIGHT -> filled_run HEIGHT (length balls) (tower HEIGHT balls).
Proof.
  intros Hb. split_and!; [done | by apply tower_length | |].
  - intros j Hj. destruct (lookup_lt_is_Some_2 balls j Hj) as [c Hc].
    exists c. by apply tower_lookup_ball.
  - intros j Hj. by apply tower_lookup_null.
Qed.

Lemma filled_run_no_ball_above_empty HEIGHT n column :
  filled_run HEIGHT n column -> no_ball_above_empty column.
Proof.
  intros (Hn & Hlen & Hballs & Hnull) i j v Hij Hi Hj.
  destruct (decide (i < n)) as [Hlt|Hge].
  { destruct (Hballs i Hlt) as [c Hc]. congruence. }
  apply lookup_lt_Some in Hj as Hj'.
  rewrite Hnull in Hj by lia. congruence.
Qed.

Lemma tower_count_filled HEIGHT balls :
  count_filled (tower HEIGHT balls) = length balls.
Proof.
  unfold count_filled, tower. rewrite filter_app, length_app.
  replace (filter _ (replicate _ Null)) with (@nil value).
  - cbn [length]. rewrite Nat.add_0_r.
    induction balls as [|c balls IH]; [done|].
    cbn [fmap list_fmap]. rewrite filter_cons_True by done. cbn [length]. by rewrite IH.
  - induction (HEIGHT - length balls) as [|n IH]; [done|].
    cbn [replicate]. by rewrite filter_cons_False by (intros H; by apply H).
Qed.

Lemma initializeState_towers Math_random frames elements columns height calls b calls' :
  initializeState Math_random frames elements columns height calls = (Return b, calls') ->
  exists partition calls1,
    chooseBallsInColumn Math_random frames columns
      (Z.of_nat (length elements)) height calls1 = (Return partition, calls')
    /\ is_partition columns (Z.of_nat (length elements)) height partition
    /\ Forall2 (fun column n => exists balls,
                  Z.of_nat (length balls) = n /\ length balls <= Z.to_nat height
                  /\ column = tower (Z.to_nat height) balls)
               b partition
    /\ board_colors b ≡ₚ elements.
Proof.
  unfold initializeState, rand_bind.
  destruct (shuffle Math_random elements calls) as [shuffleElements calls1] eqn:Hs.
  destruct (chooseBallsInColumn _ _ _ _ _ calls1) as [[partition| |e] calls2] eqn:Hp;
    [|done..].
  intros [= <- <-]. exists partition, calls1. split; [done|].
  pose proof Hp as Hsound.
  apply chooseBallsInColumn_sound in Hsound as ((Hlen & Hall & Hsum) & Hh); [|lia].
  split; [done|].
  assert (Hlen' : length shuffleElements = length elements).
  { change shuffleElements with (shuffleElements, calls1).1.
    rewrite <- Hs. apply shuffle_length. }
  rewrite <- (Z2Nat.id height) in Hall |- * by done.
  destruct (fill_columns_spec shuffleElements (Z.to_nat height) partition [] 0)
    as (cols & -> & Hcols & Hcolors); [done | lia |].
  rewrite Nat2Z.id. split; [done|].
  cbn [app]. rewrite Hcolors, Hsum, Nat2Z.id, <- Hlen', drop_0, firstn_all.
  change shuffleElements with (shuffleElements, calls1).1.
  rewrite <- Hs. apply shuffle_Permutation.
Qed.

(** The board made by [initializeState] for [COLUMNS] columns of [HEIGHT]
    slots, with no piece selected, is where the clicks start from. *)
Lemma initializeState_game_ok Math_random frames elements COLUMNS HEIGHT calls
    playable calls' reference :
  initializeState Math_random frames elements (Z.of_nat COLUMNS) (Z.of_nat HEIGHT) calls
    = (Return playable, calls') ->
  game_ok COLUMNS HEIGHT (Game playable reference None).
Proof.
  intros (partition & calls1 & _ & (Hlen & _ & _) & Hcols & _)%initializeState_towers.
  rewrite Nat2Z.id in Hcols.
  split_and!; cbn [state selectedPiece]; [| |done].
  - apply Forall2_length in Hcols. lia.
  - clear Hlen. induction Hcols as [|column n b p (balls & Hn & Hb & ->) _ IH];
      constructor; [|done].
    by exists balls.
Qed.

Lemma resting_filled_run HEIGHT column :
  resting HEIGHT column ->
  (exists n, filled_run HEIGHT n column) /\ no_ball_above_empty column.
Proof.
  intros (balls & Hb & ->).
  pose proof (tower_filled_run HEIGHT balls Hb) as Hrun.
  split; [by eexists | by eapply filled_run_no_ball_above_empty].
Qed.

(** C2: start from a board that [initializeState] returned for [COLUMNS]
    columns of [HEIGHT] slots and click any columns of the board, one after
    the other.  Every click completes, and afterwards every column holds
    colours in the rows below some [n] and [null] from row [n] up: no filled
    slot lies above an empty one. *)
Theorem clicks_keep_columns_filled_from_the_bottom
    Math_random frames elements COLUMNS HEIGHT calls playable calls'
    reference columnIndexes :
  initializeState Math_random frames elements (Z.of_nat COLUMNS) (Z.of_nat HEIGHT) calls
    = (Return playable, calls') ->
  Forall (fun c => c < COLUMNS) columnIndexes ->
  exists g',
    handleClicks HEIGHT columnIndexes (Game playable reference None) = Done tt g'
    /\ Forall (fun column =>
                 (exists n, filled_run HEIGHT n column)
                 /\ no_ball_above_empty column)
              (state g').
Proof.
  intros Hinit Hcs.
  destruct (handleClicks_ok COLUMNS HEIGHT columnIndexes (Game playable reference None))
    as (g' & Hg' & (_ & Hrest & _) & _); [by eapply initializeState_game_ok | done |].
  exists g'. split; [done|].
  eapply Forall_impl; [exact Hrest|]. apply resting_filled_run.
Qed.

(** C8: when [initializeState] returns a board, [chooseBallsInColumn] had
    returned a partition of the colours; column by column the board has that
    many colours in its lowest rows and [null] in the rows above, up to
    [height], so the counts of filled slots are the partition again. *)
Theorem initializeState_round_trip Math_random frames elements columns height calls
    b calls' :
  initializeState Math_random frames elements columns height calls = (Return b, calls') ->
  exists partition calls1,
    chooseBallsInColumn Math_random frames columns
      (Z.of_nat (length elements)) height calls1 = (Return partition, calls')
    /\ Zsum partition = Z.of_nat (length elements)
    /\ Forall2 (fun column n => filled_run (Z.to_nat height) (Z.to_nat n) column)
         b partition
    /\ (fun column => Z.of_nat (count_filled column)) <$> b = partition.
Proof.
  intros (partition & calls1 & Hp & (_ & _ & Hsum) & Hcols & _)%initializeState_towers.
  exists partition, calls1. split_and!; [done | done | |].
  - eapply Forall2_impl; [exact Hcols|].
    intros column n (balls & <- & Hb & ->). rewrite Nat2Z.id.
    by apply tower_filled_run.
  - clear Hp Hsum. induction Hcols as [|column n b p (balls & Hn & Hb & ->) _ IH];
      [done|].
    cbn [fmap list_fmap]. rewrite tower_count_filled. by f_equal.
Qed.

(** ** The balls on the board *)

Lemma board_colors_insert (b : board) i column column' :
  b !! i = Some column ->
  board_colors (<[i:=column']> b) ++ colors column
  ≡ₚ board_colors b ++ colors column'.
Proof.
  unfold board_colors. revert i.
  induction b as [|first b IH]; intros [|i] Hi; simplify_eq/=.
  - rewrite (Permutation_app_comm (colors column')), <- !app_assoc.
    by rewrite (Permutation_app_comm (colors column')), (assoc_L (++)),
      (Permutation_app_comm _ (colors column)), <- !app_assoc.
  - rewrite <- !app_assoc. apply Permutation_app_head, IH, Hi.
Qed.

(** Moving the topmost ball of one tower onto another keeps the colours of
    the board. *)
Lemma board_colors_move HEIGHT (b : board) from to source x target :
  from <> to ->
  b !! from = Some (tower HEIGHT (source ++ [x])) ->
  b !! to = Some (tower HEIGHT target) ->
  board_colors (<[from:=tower HEIGHT source]>
                  (<[to:=tower HEIGHT (target ++ [x])]> b))
  ≡ₚ board_colors b.
Proof.
  intros Hne Hfrom Hto.
  pose proof (board_colors_insert b to _ (tower HEIGHT (target ++ [x])) Hto) as H1.
  pose proof (board_colors_insert (<[to:=tower HEIGHT (target ++ [x])]> b) from
                (tower HEIGHT (source ++ [x])) (tower HEIGHT source)) as H2.
  rewrite list_lookup_insert_ne in H2 by done. specialize (H2 Hfrom).
  rewrite !tower_colors in H1, H2.
  apply (Permutation_app_inv_r [x]), (Permutation_app_inv_r target).
  etrans; [apply Permutation_app_tail, (Permutation_app_inv_r source) |].
  { etrans; [|exact H2].
    rewrite <- (assoc_L (++)). apply Permutation_app_head, Permutation_app_comm. }
  etrans; [exact H1|].
  rewrite <- (assoc_L (++)). apply Permutation_app_head, Permutation_app_comm.
Qed.

(** C10: on a board reached from [initializeState] by clicks on columns of
    the board, one more such click completes and leaves the colours on the
    board the same, each as often as before.  A first click and a second
    click on the selected column or on a full column leave every slot as it
    is; any other second click takes the topmost ball off the selected
    column and puts it in the lowest empty slot of the clicked column. *)
Theorem click_keeps_the_balls
    Math_random frames elements COLUMNS HEIGHT calls playable calls'
    reference columnIndexes g columnIndex :
  initializeState Math_random frames elements (Z.of_nat COLUMNS) (Z.of_nat HEIGHT) calls
    = (Return playable, calls') ->
  Forall (fun c => c < COLUMNS) columnIndexes ->
  handleClicks HEIGHT columnIndexes (Game playable reference None) = Done tt g ->
  columnIndex < COLUMNS ->
  exists g',
    handleClick HEIGHT columnIndex g = Done tt g'
    /\ board_colors (state g') ≡ₚ board_colors (state g)
    /\ click_effect HEIGHT g columnIndex g'.
Proof.
  intros Hinit Hcs Hg Hc.
  destruct (handleClicks_ok COLUMNS HEIGHT columnIndexes (Game playable reference None))
    as (g0 & Hg0 & Hok & _); [by eapply initializeState_game_ok | done |].
  assert (g0 = g) as -> by congruence.
  destruct (handleClick_ok COLUMNS HEIGHT g columnIndex Hok Hc)
    as (g' & Hg' & _ & Heffect & _).
  exists g'. split_and!; [done | | done].
  unfold click_effect in Heffect.
  destruct (selectedPiece g) as [p|]; [|by rewrite Heffect].
  destruct Heffect as [_ Heffect].
  case_decide as Hsame; [by rewrite Heffect|].
  destruct Heffect as (source & x & target & Hfrom & _ & Hto & _ & ->).
  case_decide; [|done].
  by eapply board_colors_move.
Qed.

(** ** A click on a full column *)

(** On a column of [HEIGHT] slots, none of them [null], the loop of
    [findEmptyRow] passes every row and then row [HEIGHT], where the read
    gives [undefined]; that is not [null] either, and the loop ends. *)
Lemma findEmptyRow_from_full HEIGHT g columnIndex column remaining i :
  state g !! columnIndex = Some column ->
  length column = HEIGHT -> Forall (fun v => v <> Null) column ->
  i + remaining = S HEIGHT ->
  findEmptyRow_from columnIndex remaining i g = Done (-1)%Z g.
Proof.
  intros Hc Hlen Hfull. revert i.
  induction remaining as [|remaining IH]; intros i Hr; [done|].
  cbn [findEmptyRow_from]. unfold exec_bind.
  rewrite (read_cell_state _ _ _ _ Hc).
  destruct (column !! i) as [v|] eqn:Hi.
  - rewrite (array_get_lookup _ _ _ Hi).
    pose proof (Forall_lookup_1 _ _ _ _ Hfull Hi) as Hv.
    apply lookup_lt_Some in Hi.
    destruct v; [|done|]; cbn [is_null]; apply IH; lia.
  - apply lookup_ge_None_1 in Hi. rewrite array_get_past_end by done.
    cbn [is_null]. destruct remaining; [done | lia].
Qed.

(** On any column of [HEIGHT] slots [findEmptyRow] returns -1 or a row of
    the column that holds [null], never row [HEIGHT]. *)
Lemma findEmptyRow_from_in_range HEIGHT g columnIndex column remaining i :
  state g !! columnIndex = Some column ->
  length column = HEIGHT ->
  i + remaining = S HEIGHT ->
  exists r,
    findEmptyRow_from columnIndex remaining i g = Done r g
    /\ (r = (-1)%Z
        \/ (Z.of_nat i <= r < Z.of_nat HEIGHT)%Z
           /\ column !! Z.to_nat r = Some Null).
Proof.
  intros Hc Hlen. revert i.
  induction remaining as [|remaining IH]; intros i Hr; [by eexists; eauto|].
  cbn [findEmptyRow_from]. unfold exec_bind.
  rewrite (read_cell_state _ _ _ _ Hc).
  destruct (column !! i) as [v|] eqn:Hi.
  - rewrite (array_get_lookup _ _ _ Hi). apply lookup_lt_Some in Hi as Hlt.
    destruct v; cbn [is_null].
    2:{ exists (Z.of_nat i). split; [done|]. right.
        rewrite Nat2Z.id. split; [lia | done]. }
    all: destruct (IH (S i)) as (r & -> & Hrange); [lia|];
      exists r; split; [done|]; destruct Hrange as [->|[? ?]];
      [by left | right; split; [lia | done]].
  - apply lookup_ge_None_1 in Hi. rewrite array_get_past_end by done.
    cbn [is_null]. destruct remaining; [|lia]. exists (-1)%Z. by split; [|left].
Qed.

Lemma findEmptyRow_in_range HEIGHT g columnIndex column :
  state g !! columnIndex = Some column ->
  length column = HEIGHT ->
  exists r,
    findEmptyRow HEIGHT columnIndex g = Done r g
    /\ (r = (-1)%Z
        \/ (0 <= r < Z.of_nat HEIGHT)%Z /\ column !! Z.to_nat r = Some Null).
Proof.
  intros Hc Hlen.
  destruct (findEmptyRow_from_in_range HEIGHT g columnIndex column (S HEIGHT) 0)
    as (r & Hr & Hrange); [done.. | lia |].
  exists r. split; [done|]. destruct Hrange as [->|[? ?]]; [by left | by right].
Qed.

(** C5: with a piece selected, a click on another column whose [HEIGHT]
    slots are all filled completes without an error, leaves both boards as
    they are and clears the selection; [findEmptyRow] returns -1 there,
    although its loop reads row [HEIGHT]. *)
Theorem click_on_full_column_is_rejected HEIGHT g p columnIndex target :
  selectedPiece g = Some p ->
  columnIndex <> column p ->
  state g !! columnIndex = Some target ->
  length target = HEIGHT ->
  Forall (fun v => v <> Null) target ->
  findEmptyRow HEIGHT columnIndex g = Done (-1)%Z g
  /\ handleClick HEIGHT columnIndex g
     = Done tt (Game (state g) (referenceState g) None).
Proof.
  intros Hp Hne Hc Hlen Hfull.
  assert (Hrow : findEmptyRow HEIGHT columnIndex g = Done (-1)%Z g)
    by (eapply findEmptyRow_from_full; [done.. | lia]).
  split; [done|].
  unfold handleClick. rewrite Hp.
  unfold handleSecondClick, exec_bind at 1, selected at 1. rewrite Hp.
  rewrite decide_False by done.
  unfold exec_bind at 1. by rewrite Hrow.
Qed.

(** ** haveWon *)

Section HaveWonFacts.

Variables COLUMNS HEIGHT : nat.

Lemma haveWon_rows_spec g i column column' remaining j :
  state g !! i = Some column -> referenceState g !! i = Some column' ->
  exists same,
    haveWon_rows i remaining j g = Done same g
    /\ (same = true <->
        forall k, j <= k < j + remaining ->
          array_get column (Z.of_nat k) = array_get column' (Z.of_nat k)).
Proof.
  intros Hc Hc'. revert j.
  induction remaining as [|remaining IH]; intros j.
  { exists true. split; [done|]. split; [intros _ k ?; lia | done]. }
  cbn [haveWon_rows]. unfold exec_bind, read_cell. rewrite Hc, Hc'.
  case_bool_decide as Hdiff.
  - exists false. split; [done|]. split; [done|].
    intros H. destruct Hdiff. apply H. lia.
  - destruct (IH (S j)) as (same & -> & Hsame). exists same. split; [done|].
    rewrite Hsame. split.
    + intros H k Hk. destruct (decide (k = j)) as [->|]; [done | apply H; lia].
    + intros H k Hk. apply H. lia.
Qed.

Lemma haveWon_columns_spec g remaining i :
  i + remaining <= length (state g) ->
  i + remaining <= length (referenceState g) ->
  exists won,
    haveWon_columns HEIGHT remaining i g = Done won g
    /\ (won = true <->
        forall i' j, i <= i' < i + remaining -> j < HEIGHT ->
          slot (state g) i' j = slot (referenceState g) i' j).
Proof.
  revert i. induction remaining as [|remaining IH]; intros i Hs Hr.
  { exists true. split; [done|]. split; [intros _ ? ? ?; lia | done]. }
  destruct (lookup_lt_is_Some_2 (state g) i ltac:(lia)) as [column Hc].
  destruct (lookup_lt_is_Some_2 (referenceState g) i ltac:(lia)) as [column' Hc'].
  cbn [haveWon_columns]. unfold exec_bind.
  destruct (haveWon_rows_spec g i column column' HEIGHT 0 Hc Hc')
    as (same & -> & Hsame).
  assert (Hslot : same = true <->
            forall j, j < HEIGHT -> slot (state g) i j = slot (referenceState g) i j).
  { rewrite Hsame. unfold slot. rewrite Hc, Hc'. cbn [fmap option_fmap option_map].
    split; intros H j Hj; [f_equal | apply (inj Some)]; apply H; lia. }
  destruct same.
  - destruct (IH (S i)) as (won & -> & Hwon); [lia.. |].
    exists won. split; [done|]. rewrite Hwon. split.
    + intros H i' j Hi' Hj.
      destruct (decide (i' = i)) as [->|]; [by apply Hslot | apply H; lia].
    + intros H i' j Hi' Hj. apply H; lia.
  - exists false. split; [done|]. split; [done|].
    intros H. apply Hslot. intros j Hj. apply H; lia.
Qed.

End HaveWonFacts.

(** C7: on boards of at least [COLUMNS] columns, [haveWon] completes and
    leaves both boards and the selection as they are; it returns [true]
    exactly when row [j] of column [i] is the same value on both boards for
    every [i] below [COLUMNS] and [j] below [HEIGHT]. *)
Theorem haveWon_iff_boards_agree COLUMNS HEIGHT g :
  COLUMNS <= length (state g) ->
  COLUMNS <= length (referenceState g) ->
  exists won,
    haveWon COLUMNS HEIGHT g = Done won g
    /\ (won = true <->
        forall i j, i < COLUMNS -> j < HEIGHT ->
          slot (state g) i j = slot (referenceState g) i j).
Proof.
  intros Hs Hr.
  destruct (haveWon_columns_spec HEIGHT g COLUMNS 0) as (won & Hwon & Hiff);
    [done.. |].
  exists won. split; [done|]. rewrite Hiff.
  split; intros H i j Hi Hj; apply H; lia.
Qed.

(** ** The number of balls *)

Section BallCountFacts.

Variable Math_random : nat -> unit_interval.




End BallCountFacts.

(** C6 (the code differs): for 3 columns of height 5 the interval is not
    empty, and when [Math.random()] answers 7/8 [initNumberOfBalls] returns
    9, above [floor(3 * 5 / 2) + 1 = 8]: [maxBalls] is 8.5, not an integer. *)
Theorem initNumberOfBalls_odd_area_above_maximum :
  (2 * 3 <= 3 * 5 / 2 + 1)%Z
  /\ (initNumberOfBalls (fun _ => seven_eighths) 3 5 0).1 = 9%Z
  /\ (3 * 5 / 2 + 1 < 9)%Z.
Proof. split_and!; [discriminate | reflexivity | reflexivity]. Qed.

(** ** The colours *)

(** *** From rationals to integers *)













(** *** The place of a colour on the wheel *)

Local Open Scope Z_scope.









Local Close Scope Z_scope.

(** *** The colours as strings *)


Lemma hex2_table :
  forallb (fun x => (String.length (hex2 x) =? 2)%nat && (unhex (hex2 x) =? x)%Z)
          (keys 256) = true.
Proof. vm_compute. reflexivity. Qed.

Lemma hex2_entry x :
  (0 <= x <= 255)%Z -> String.length (hex2 x) = 2 /\ unhex (hex2 x) = x.
Proof.
  intros Hx. assert (Hin : In x (keys 256)) by (apply list_elem_of_In, elem_of_keys; lia).
  apply (proj1 (forallb_forall _ _) hex2_table) in Hin.
  apply andb_prop in Hin as [Hlen Hun].
  split; [by apply Nat.eqb_eq | by apply Z.eqb_eq].
Qed.

Lemma hex2_length x : (0 <= x <= 255)%Z -> String.length (hex2 x) = 2.
Proof. apply hex2_entry. Qed.






(** Far beyond, neighbours coincide all along the wheel: of the 3600
    colours for [n = 3600] the first two, at hues 0 and 0.1, are "#ff0000". *)
Lemma wheel_3600_repeats :
  wheel 3600 !! 0 = Some "#ff0000" /\ wheel 3600 !! 1 = Some "#ff0000".
Proof. split; vm_compute; reflexivity. Qed.

(** ** The script's start *)

Lemma initializeState_returns Math_random frames elements columns height calls :
  (1 <= columns)%Z -> (0 <= height)%Z ->
  (Z.of_nat (length elements) <= height * columns)%Z ->
  Z.to_nat columns <= frames ->
  exists b calls',
    initializeState Math_random frames elements columns height calls = (Return b, calls').
Proof.
  intros Hc Hh Hfit Hf. unfold initializeState, rand_bind.
  destruct (shuffle Math_random elements calls) as [shuffleElements calls1].
  destruct (chooseBallsInColumn_feasible Math_random frames columns
              (Z.of_nat (length elements)) height calls1)
    as (partition & calls2 & -> & _); [done | done | lia | done |].
  by eexists _, _.
Qed.


(** * More of the script *)

(** ** shuffle and the random integers *)

Lemma shuffle_from_calls Math_random {A} remaining currentIndex (array : list A) calls :
  (shuffle_from Math_random remaining currentIndex array calls).2 = calls + remaining.
Proof.
  revert currentIndex array calls.
  induction remaining as [|remaining IH]; intros currentIndex array calls.
  { cbn. lia. }
  cbn [shuffle_from]. unfold rand_bind, random_floor at 1. rewrite IH. lia.
Qed.

(** X1: [shuffle] returns the elements of its array, each as often as
    before, and calls [Math.random] once for each element after the first. *)
Theorem shuffle_rearranges Math_random {A} (array : list A) calls :
  (shuffle Math_random array calls).1 ≡ₚ array
  /\ length (shuffle Math_random array calls).1 = length array
  /\ (shuffle Math_random array calls).2 = calls + (length array - 1).
Proof.
  split_and!.
  - apply shuffle_Permutation.
  - apply shuffle_length.
  - apply shuffle_from_calls.
Qed.

Lemma swap_lookup_random {A} (array : list A) i j :
  i < length array -> j < i -> swap array i j !! j = array !! i.
Proof.
  intros Hi Hj. unfold swap.
  destruct (lookup_lt_is_Some_2 array j ltac:(lia)) as [aj ->].
  destruct (lookup_lt_is_Some_2 array i Hi) as [ai Hai]. rewrite Hai.
  rewrite list_lookup_insert_eq; [done|]. rewrite length_insert. lia.
Qed.

(** What the loop of [shuffle] keeps: the slots from [currentIndex] on are
    as in the [original] array, and the slots below hold elements that came
    from below [currentIndex], none of them, once two slots are done, from
    its own slot. *)
Lemma shuffle_from_displaces Math_random {A} (original : list A) remaining currentIndex
    array calls :
  NoDup original -> 2 <= length original ->
  length array = length original ->
  1 <= currentIndex -> currentIndex + remaining = length original ->
  (forall p, currentIndex <= p -> array !! p = original !! p) ->
  (forall p, p < currentIndex ->
     exists q, q < currentIndex /\ array !! p = original !! q
               /\ (2 <= currentIndex -> q <> p)) ->
  forall p, p < length original ->
    (shuffle_from Math_random remaining currentIndex array calls).1 !! p
    <> original !! p.
Proof.
  intros Hnodup Htwo. revert currentIndex array calls.
  induction remaining as [|remaining IH];
    intros currentIndex array calls Hlen Hc Hsum Hrest Hdone p Hp.
  - cbn [shuffle_from rand_ret fst].
    destruct (Hdone p ltac:(lia)) as (q & Hq & -> & Hne).
    destruct (lookup_lt_is_Some_2 original q ltac:(lia)) as [x Hx].
    rewrite Hx. intros Hx'. symmetry in Hx'.
    pose proof (NoDup_lookup _ _ _ _ Hnodup Hx Hx'). lia.
  - cbn [shuffle_from]. unfold rand_bind.
    pose proof (random_floor_range Math_random (Z.of_nat currentIndex) calls
                  ltac:(lia)) as Hj.
    destruct (random_floor Math_random (Z.of_nat currentIndex) calls)
      as [randomIndex calls1]. cbn [fst] in Hj.
    set (j := Z.to_nat randomIndex). assert (Hj' : j < currentIndex) by lia.
    apply IH; [by rewrite swap_length | lia | lia | | | done].
    + intros p' Hp'. rewrite swap_lookup_other by lia. apply Hrest. lia.
    + intros p' Hp'.
      destruct (decide (p' = currentIndex)) as [->|Hpc].
      { rewrite swap_lookup_current by lia.
        destruct (Hdone j Hj') as (q & Hq & Hjq & _).
        exists q. split_and!; [lia | done | lia]. }
      destruct (decide (p' = j)) as [->|Hpj].
      { rewrite swap_lookup_random by lia.
        exists currentIndex. split_and!; [lia | apply Hrest; lia | lia]. }
      rewrite swap_lookup_other by done.
      destruct (Hdone p' ltac:(lia)) as (q & Hq & Hpq & Hne).
      exists q. split_and!; [lia | done | lia].
Qed.

(** X2: in what [shuffle] returns for an array of two or more different
    elements, no element is in the slot it had: every index holds another
    element than before, whatever [Math.random] answers. *)
Theorem shuffle_moves_every_element Math_random {A} (array : list A) calls i :
  NoDup array -> 2 <= length array -> i < length array ->
  (shuffle Math_random array calls).1 !! i <> array !! i.
Proof.
  intros Hnodup Hlen Hi. unfold shuffle.
  apply (shuffle_from_displaces Math_random array);
    [done | done | done | lia | lia | done | | done].
  intros p Hp. exists p. split_and!; [done | done | lia].
Qed.




(** ** The colours and the boards *)

Lemma Math_round_range (x : Q) :
  (0 <= x <= 255)%Q -> (0 <= Math_round x <= 255)%Z.
Proof.
  intros [H0 H1]. unfold Math_round. split.
  - change 0%Z with (Qfloor (1 # 2)). apply Qfloor_resp_le. lra.
  - change 255%Z with (Qfloor (255 + (1 # 2))). apply Qfloor_resp_le. lra.
Qed.

Lemma channel_range (l a t : Q) :
  (0 <= a)%Q -> (a <= l)%Q -> (a <= 1 - l)%Q -> (-1 <= t <= 1)%Q ->
  (0 <= Math_round (255 * (l - a * t)) <= 255)%Z.
Proof.
  intros Ha Hl Hl' [Ht Ht']. apply Math_round_range.
  assert (- a <= a * t)%Q by nra.
  assert (a * t <= a)%Q by nra.
  lra.
Qed.

Lemma clamp_range (x : Q) : (-1 <= Qmax (Qmin x 1) (-1) <= 1)%Q.
Proof.
  split; [apply Q.le_max_r |].
  apply Q.max_lub; [apply Q.le_min_r | lra].
Qed.

Lemma length_append (a b : string) :
  String.length (a +:+ b) = String.length a + String.length b.
Proof.
  induction a as [|c a IH]; [done|].
  change (String c a +:+ b) with (String c (a +:+ b)).
  cbn [String.length]. by rewrite IH.
Qed.

(** X5: for a saturation and a lightness from 0 to 100 and every hue, also
    a negative one or one past 360, [hslToHex] returns seven characters: [#]
    and, for each of red, green and blue, the two hexadecimal digits of a
    level from 0 to 255. *)
Theorem hslToHex_six_digits h s l :
  (0 <= s <= 100)%Q -> (0 <= l <= 100)%Q ->
  String.length (hslToHex h s l) = 7
  /\ exists r g b : Z,
       hslToHex h s l = "#" +:+ hex2 r +:+ hex2 g +:+ hex2 b
       /\ (0 <= r <= 255)%Z /\ (0 <= g <= 255)%Z /\ (0 <= b <= 255)%Z.
Proof.
  intros Hs Hl.
  assert (Hrgb : exists r g b : Z,
    hslToHex h s l = "#" +:+ hex2 r +:+ hex2 g +:+ hex2 b
    /\ (0 <= r <= 255)%Z /\ (0 <= g <= 255)%Z /\ (0 <= b <= 255)%Z).
  { unfold hslToHex. cbv zeta.
    set (l' := (l / 100)%Q).
    set (a := (s * Qmin l' (1 - l') / 100)%Q).
    assert (Hl' : (0 <= l' <= 1)%Q).
    { unfold l'. split; [apply Qle_shift_div_l | apply Qle_shift_div_r]; lra. }
    assert (Hm : (0 <= Qmin l' (1 - l'))%Q) by (apply Q.min_glb; lra).
    assert (Ha : (0 <= a)%Q /\ (a <= Qmin l' (1 - l'))%Q).
    { unfold a. set (m := Qmin _ _) in *. clearbody m.
      split; [apply Qle_shift_div_l | apply Qle_shift_div_r]; nra. }
    destruct Ha as [Ha Ham].
    assert (Hal : (a <= l')%Q) by (eapply Qle_trans; [exact Ham | apply Q.le_min_l]).
    assert (Hal' : (a <= 1 - l')%Q) by (eapply Qle_trans; [exact Ham | apply Q.le_min_r]).
    eexists _, _, _. split; [reflexivity |].
    split_and!; apply channel_range; auto using clamp_range. }
  split; [|done].
  destruct Hrgb as (r & g & b & -> & Hr & Hg & Hb).
  rewrite !length_append, !hex2_length by done. reflexivity.
Qed.

Lemma chooseBallsInColumn_not_empty Math_random frames columns balls height calls l calls' :
  chooseBallsInColumn Math_random frames columns balls height calls = (Return l, calls') ->
  l <> [].
Proof.
  destruct frames as [|frames]; [done|]. cbn [chooseBallsInColumn].
  destruct (div_gt balls columns height); [done|].
  destruct (columns =? 1)%Z; [by intros [= <- _]|].
  destruct (Z.min height balls + 1 <? 0)%Z; [done|].
  unfold rand_bind. destruct (shuffle _ _ _) as [possibilities calls1].
  by intros (x & l' & calls2 & -> & _)%try_each_inv.
Qed.

Lemma Zsum_le_height height l :
  Forall (fun n => (0 <= n <= height)%Z) l ->
  (Zsum l <= height * Z.of_nat (length l))%Z.
Proof.
  induction 1 as [|n l Hn _ IH]; [unfold Zsum; cbn; lia|].
  change (Zsum (n :: l)) with (n + Zsum l)%Z. cbn [length]. lia.
Qed.

(** X6: [chooseBallsInColumn] returns an array only when the balls fit.  If
    it returns one for a ball count of zero or more, there is at least one
    column, the height is not negative, the balls are at most
    [columns * height], and the array is a partition of them: one count for
    each column, each from 0 to [height], that add up to [balls]. *)
Theorem chooseBallsInColumn_returns_only_partitions
    Math_random frames columns balls height calls l calls' :
  (0 <= balls)%Z ->
  chooseBallsInColumn Math_random frames columns balls height calls = (Return l, calls') ->
  (1 <= columns)%Z /\ (0 <= height)%Z /\ (balls <= height * columns)%Z
  /\ is_partition columns balls height l.
Proof.
  intros Hb Hl.
  pose proof (chooseBallsInColumn_not_empty _ _ _ _ _ _ _ _ Hl) as Hne.
  apply chooseBallsInColumn_sound in Hl as [(Hlen & Hall & Hsum) Hh]; [|done].
  pose proof (Zsum_le_height height l Hall) as Hle.
  split_and!; [destruct l; [done | cbn in Hlen; lia] | done | lia | done].
Qed.

(** X7: for at least one column, a height of zero or more and a stack of at
    least [columns] frames, [initializeState] returns a board when the
    elements are at most [columns * height]; when they are more it throws
    the error "Cannot hold all the balls", after the shuffle of the
    elements has used [Math.random]. *)
Theorem initializeState_fits_or_throws Math_random frames elements columns height calls :
  (1 <= columns)%Z -> (0 <= height)%Z -> Z.to_nat columns <= frames ->
  if decide (Z.of_nat (length elements) <= height * columns)%Z
  then exists b calls',
    initializeState Math_random frames elements columns height calls = (Return b, calls')
  else initializeState Math_random frames elements columns height calls
       = (Throw (Error "Cannot hold all the balls"), calls + (length elements - 1)).
Proof.
  intros Hc Hh Hf. case_decide as Hfit.
  - by apply initializeState_returns.
  - unfold initializeState, rand_bind.
    pose proof (shuffle_from_calls Math_random (length elements - 1) 1 elements calls)
      as Hcalls.
    fold (shuffle Math_random elements calls) in Hcalls.
    destruct (shuffle Math_random elements calls) as [shuffleElements calls1].
    cbn [snd] in Hcalls. subst calls1.
    destruct frames as [|frames]; [lia|]. cbn [chooseBallsInColumn].
    assert (Hgt : div_gt (Z.of_nat (length elements)) columns height = true)
      by (apply div_gt_pos; lia).
    by rewrite Hgt.
Qed.

Lemma tower_no_undefined HEIGHT balls : Undefined ∉ tower HEIGHT balls.
Proof.
  unfold tower. rewrite elem_of_app, list_elem_of_fmap.
  intros [(c & [=] & _)|[[=] _]%elem_of_replicate].
Qed.

(** X8: a board that [initializeState] returns has [columns] columns of
    [height] slots each, no slot of it is [undefined], and the colours in
    its slots are the elements, each as often as it was given. *)
Theorem initializeState_deals_every_element
    Math_random frames elements columns height calls b calls' :
  initializeState Math_random frames elements columns height calls = (Return b, calls') ->
  Z.of_nat (length b) = columns
  /\ Forall (fun column => Z.of_nat (length column) = height /\ Undefined ∉ column) b
  /\ board_colors b ≡ₚ elements.
Proof.
  intros (partition & calls1 & Hp & (Hlen & _ & _) & Hcols & Hcolors)%initializeState_towers.
  apply chooseBallsInColumn_sound in Hp as [_ Hh]; [|lia].
  split_and!; [| |done].
  - apply Forall2_length in Hcols. lia.
  - clear Hlen Hcolors.
    induction Hcols as [|column n b p (balls & Hn & Hb & ->) _ IH]; [constructor|].
    constructor; [|done].
    split; [rewrite tower_length by done; lia | apply tower_no_undefined].
Qed.

(** ** The two searches of a column *)

Lemma findTopPiece_below_spec g columnIndex column n :
  state g !! columnIndex = Some column ->
  exists r,
    findTopPiece_below columnIndex n g = Done r g
    /\ (forall i, (r < Z.of_nat i)%Z -> i < n -> array_get column (Z.of_nat i) = Null)
    /\ (r = (-1)%Z \/ (0 <= r < Z.of_nat n)%Z /\ array_get column r <> Null).
Proof.
  intros Hc. induction n as [|n (r & Hr & Habove & Hat)].
  { exists (-1)%Z. split; [done|]. split; [lia | by left]. }
  cbn [findTopPiece_below]. unfold exec_bind. rewrite (read_cell_state _ _ _ _ Hc).
  destruct (array_get column (Z.of_nat n)) as [| |c] eqn:Hn; cbn [is_null negb].
  - exists (Z.of_nat n). split; [done|]. split; [lia|]. right. split; [lia | by rewrite Hn].
  - exists r. split; [done|]. split.
    + intros i Hi Hi'. destruct (decide (i = n)) as [->|]; [done | apply Habove; lia].
    + destruct Hat as [|[? ?]]; [by left | right; split; [lia | done]].
  - exists (Z.of_nat n). split; [done|]. split; [lia|]. right. split; [lia | by rewrite Hn].
Qed.

(** X10: on a column that the board has, [findTopPiece] completes, changes
    no variable, and returns the highest row below [HEIGHT] whose slot is
    not [null], or -1 when every such row holds [null]. *)
Theorem findTopPiece_highest_ball HEIGHT g columnIndex column :
  state g !! columnIndex = Some column ->
  exists r,
    findTopPiece HEIGHT columnIndex g = Done r g
    /\ (forall i, (r < Z.of_nat i)%Z -> i < HEIGHT -> array_get column (Z.of_nat i) = Null)
    /\ (r = (-1)%Z \/ (0 <= r < Z.of_nat HEIGHT)%Z /\ array_get column r <> Null).
Proof. apply findTopPiece_below_spec. Qed.

Lemma findEmptyRow_from_spec HEIGHT g columnIndex column remaining i :
  state g !! columnIndex = Some column ->
  i + remaining = S HEIGHT ->
  (forall k, k < i -> array_get column (Z.of_nat k) <> Null) ->
  exists r,
    findEmptyRow_from columnIndex remaining i g = Done r g
    /\ (r = (-1)%Z /\ (forall k, k <= HEIGHT -> array_get column (Z.of_nat k) <> Null)
        \/ (0 <= r <= Z.of_nat HEIGHT)%Z /\ array_get column r = Null
           /\ forall k, (Z.of_nat k < r)%Z -> array_get column (Z.of_nat k) <> Null).
Proof.
  intros Hc. revert i.
  induction remaining as [|remaining IH]; intros i Hi Hbelow.
  { exists (-1)%Z. split; [done|]. left. split; [done|]. intros k Hk. apply Hbelow. lia. }
  cbn [findEmptyRow_from]. unfold exec_bind. rewrite (read_cell_state _ _ _ _ Hc).
  destruct (is_null (array_get column (Z.of_nat i))) eqn:Hn.
  - exists (Z.of_nat i). split; [done|]. right.
    split; [lia|]. split; [by destruct (array_get column (Z.of_nat i))|].
    intros k Hk. apply Hbelow. lia.
  - apply IH; [lia|]. intros k Hk.
    destruct (decide (k = i)) as [->|]; [|apply Hbelow; lia].
    intros Hnull. by rewrite Hnull in Hn.
Qed.

(** X11: on a column that the board has, [findEmptyRow] completes, changes
    no variable, and returns the lowest row from 0 to [HEIGHT], [HEIGHT]
    included, whose slot holds [null], or -1 when there is none.  On a
    column of at most [HEIGHT] slots the row it returns is below [HEIGHT]. *)
Theorem findEmptyRow_lowest_empty HEIGHT g columnIndex column :
  state g !! columnIndex = Some column ->
  exists r,
    findEmptyRow HEIGHT columnIndex g = Done r g
    /\ (r = (-1)%Z /\ (forall k, k <= HEIGHT -> array_get column (Z.of_nat k) <> Null)
        \/ (0 <= r <= Z.of_nat HEIGHT)%Z /\ array_get column r = Null
           /\ forall k, (Z.of_nat k < r)%Z -> array_get column (Z.of_nat k) <> Null)
    /\ (length column <= HEIGHT -> (r < Z.of_nat HEIGHT)%Z).
Proof.
  intros Hc.
  destruct (findEmptyRow_from_spec HEIGHT g columnIndex column (S HEIGHT) 0 Hc)
    as (r & Hr & Hspec); [lia | lia |].
  exists r. split; [done|]. split; [done|].
  intros Hlen. destruct Hspec as [[-> _]|(Hrange & Hnull & _)]; [lia|].
  destruct (decide (r = Z.of_nat HEIGHT)) as [->|]; [|lia].
  by rewrite array_get_past_end in Hnull.
Qed.

(** ** Games in play *)

Lemma dealt_towers COLUMNS HEIGHT elements b :
  dealt COLUMNS HEIGHT elements b ->
  length b = COLUMNS /\ Forall (resting HEIGHT) b /\ board_colors b ≡ₚ elements.
Proof.
  intros (Math_random & frames & calls & calls' & Hb).
  pose proof (initializeState_game_ok _ _ _ _ _ _ _ _ [] Hb) as (Hlen & Hrest & _).
  apply initializeState_towers in Hb as (_ & _ & _ & _ & _ & Hcolors).
  done.
Qed.

Lemma click_effect_colors HEIGHT g columnIndex g' :
  click_effect HEIGHT g columnIndex g' ->
  board_colors (state g') ≡ₚ board_colors (state g).
Proof.
  unfold click_effect. intros Heffect.
  destruct (selectedPiece g) as [p|]; [|by rewrite Heffect].
  destruct Heffect as [_ Heffect].
  case_decide as Hsame; [by rewrite Heffect|].
  destruct Heffect as (source & x & target & Hfrom & _ & Hto & _ & ->).
  case_decide; [|done].
  by eapply board_colors_move.
Qed.

Lemma handleClicks_colors COLUMNS HEIGHT columnIndexes g g' :
  game_ok COLUMNS HEIGHT g -> Forall (fun c => c < COLUMNS) columnIndexes ->
  handleClicks HEIGHT columnIndexes g = Done tt g' ->
  board_colors (state g') ≡ₚ board_colors (state g).
Proof.
  intros Hok Hcs. revert g Hok.
  induction Hcs as [|c cs Hc _ IH]; intros g Hok; [by intros [= ->]|].
  destruct (handleClick_ok COLUMNS HEIGHT g c Hok Hc) as (g1 & Hg1 & Hok1 & Heffect & _).
  cbn [handleClicks]. unfold exec_bind. rewrite Hg1. intros Hg'.
  rewrite (IH g1 Hok1 Hg'). by eapply click_effect_colors.
Qed.

(** What holds of a game in play: the board is made of towers, the selected
    piece is the topmost ball of its column, the reference board is made of
    towers too, and both boards hold the same colours. *)
Lemma in_play_ok COLUMNS HEIGHT g :
  in_play COLUMNS HEIGHT g ->
  game_ok COLUMNS HEIGHT g
  /\ length (referenceState g) = COLUMNS
  /\ Forall (resting HEIGHT) (referenceState g)
  /\ board_colors (state g) ≡ₚ board_colors (referenceState g).
Proof.
  intros (elements & playable & columnIndexes & Hplay & Href & Hcs & Hg).
  apply dealt_towers in Hplay as (Hlen & Hrest & Hcolors).
  apply dealt_towers in Href as (Hlen' & Hrest' & Hcolors').
  assert (Hok : game_ok COLUMNS HEIGHT (Game playable (referenceState g) None))
    by done.
  destruct (handleClicks_ok COLUMNS HEIGHT columnIndexes _ Hok Hcs)
    as (g0 & Hg0 & Hok0 & _).
  assert (g0 = g) as -> by congruence.
  split_and!; [done.. |].
  rewrite (handleClicks_colors _ _ _ _ _ Hok Hcs Hg). cbn [state].
  by rewrite Hcolors, Hcolors'.
Qed.

(** X12: in a game in play on a board of height 1 or more, a click on a
    column that the board does not have throws a TypeError and leaves both
    boards and the selected piece as they were. *)
Theorem click_outside_the_board_throws COLUMNS HEIGHT g columnIndex :
  in_play COLUMNS HEIGHT g -> 1 <= HEIGHT -> COLUMNS <= columnIndex ->
  handleClick HEIGHT columnIndex g = Raise TypeError g.
Proof.
  intros ((Hlen & _ & Hsel) & _)%in_play_ok Hh Hc.
  assert (Hnone : state g !! columnIndex = None) by (apply lookup_ge_None_2; lia).
  unfold handleClick, selection_ok in *.
  destruct (selectedPiece g) as [p|] eqn:Hp.
  - destruct Hsel as (balls & x & Hcol & _ & _).
    assert (column p < COLUMNS) by (rewrite <- Hlen; by eapply lookup_lt_Some).
    unfold handleSecondClick, exec_bind at 1, selected at 1. rewrite Hp.
    rewrite decide_False by lia.
    unfold exec_bind at 1, findEmptyRow. cbn [findEmptyRow_from].
    unfold exec_bind at 1, read_cell at 1. by rewrite Hnone.
  - unfold handleFirstClick, exec_bind at 1, findTopPiece.
    destruct HEIGHT as [|h]; [lia|]. cbn [findTopPiece_below].
    unfold exec_bind at 1, read_cell at 1. by rewrite Hnone.
Qed.

(** X13: in a game in play the selected piece, when there is one, is the
    topmost ball of a column of the board: its slot holds a colour, and
    [findTopPiece] on its column returns its row. *)
Theorem selected_piece_is_topmost_ball COLUMNS HEIGHT g p :
  in_play COLUMNS HEIGHT g -> selectedPiece g = Some p ->
  column p < COLUMNS /\ (0 <= row p < Z.of_nat HEIGHT)%Z
  /\ findTopPiece HEIGHT (column p) g = Done (row p) g
  /\ exists c, slot (state g) (column p) (Z.to_nat (row p)) = Some (Color c).
Proof.
  intros ((Hlen & _ & Hsel) & _)%in_play_ok Hp.
  unfold selection_ok in Hsel. rewrite Hp in Hsel.
  destruct Hsel as (balls & x & Hcol & Hb & Hrow).
  split_and!.
  - rewrite <- Hlen. by eapply lookup_lt_Some.
  - lia.
  - lia.
  - rewrite (findTopPiece_tower _ _ _ _ Hcol)
      by (rewrite length_app; cbn; lia).
    f_equal. rewrite length_app. cbn. lia.
  - exists x. unfold slot. rewrite Hcol. cbn [fmap option_fmap option_map].
    f_equal. rewrite Hrow, Nat2Z.id. apply array_get_lookup.
    by apply tower_lookup_ball, list_lookup_middle.
Qed.

(** X17: in a game in play the board holds the same colours as the
    reference board, each as often: no click loses or adds a ball. *)
Theorem board_holds_the_reference_colours COLUMNS HEIGHT g :
  in_play COLUMNS HEIGHT g ->
  board_colors (state g) ≡ₚ board_colors (referenceState g)
  /\ length (state g) = length (referenceState g).
Proof.
  intros ((Hlen & _ & _) & Hlen' & _ & Hcolors)%in_play_ok.
  split; [done | congruence].
Qed.

Lemma first_click_selects HEIGHT g columnIndex balls x :
  selectedPiece g = None ->
  state g !! columnIndex = Some (tower HEIGHT (balls ++ [x])) ->
  length balls < HEIGHT ->
  handleClick HEIGHT columnIndex g
  = Done tt (Game (state g) (referenceState g)
               (Some (Piece columnIndex (Z.of_nat (length balls))))).
Proof.
  intros Hsel Hcol Hb. unfold handleClick. rewrite Hsel.
  unfold handleFirstClick, exec_bind.
  rewrite (findTopPiece_tower _ _ _ _ Hcol) by (rewrite length_app; cbn; lia).
  rewrite length_app. cbn [length].
  replace (Z.of_nat (length balls + 1) - 1)%Z with (Z.of_nat (length balls)) by lia.
  by destruct (Z.eqb_spec (Z.of_nat (length balls)) (-1)) as [|_]; [lia|].
Qed.

Lemma second_click_moves HEIGHT g from columnIndex source x target :
  selectedPiece g = Some (Piece from (Z.of_nat (length source))) ->
  columnIndex <> from ->
  state g !! from = Some (tower HEIGHT (source ++ [x])) -> length source < HEIGHT ->
  state g !! columnIndex = Some (tower HEIGHT target) -> length target < HEIGHT ->
  handleClick HEIGHT columnIndex g
  = Done tt (Game (<[from:=tower HEIGHT source]>
                     (<[columnIndex:=tower HEIGHT (target ++ [x])]> (state g)))
               (referenceState g) None).
Proof.
  intros Hp Hne Hsrc Hsource Hcol Htarget. unfold handleClick. rewrite Hp.
  unfold handleSecondClick, exec_bind at 1, selected at 1. rewrite Hp.
  cbn [column row]. rewrite decide_False by done.
  unfold exec_bind at 1. rewrite (findEmptyRow_tower _ _ _ _ Hcol) by lia.
  rewrite decide_True by done.
  destruct (Z.eqb_spec (Z.of_nat (length target)) (-1)) as [|_]; [lia|].
  cbn [negb]. unfold exec_bind, selected. rewrite Hp. cbn [column row].
  rewrite (read_cell_state _ _ _ _ Hsrc).
  rewrite (array_get_lookup _ _ (Color x))
    by (apply tower_lookup_ball, list_lookup_middle; done).
  rewrite (write_cell_state _ _ _ _ _ Hcol), tower_put_top by done.
  cbn [selectedPiece]. rewrite Hp. cbn [column row].
  rewrite (write_cell_state _ _ (tower HEIGHT (source ++ [x])))
    by (cbn [state]; rewrite list_lookup_insert_ne by done; exact Hsrc).
  by rewrite tower_take_top by done.
Qed.

(** X14: in a game in play with no piece selected, take two different
    columns [a] and [b] of the board, [a] with a ball in its lowest slot and
    [b] with its highest slot empty.  The four clicks [a], [b], [b], [a]
    move the topmost ball of [a] onto [b] and back: they complete and leave
    both boards and the selection exactly as they were. *)
Theorem move_and_back_restores COLUMNS HEIGHT g a b :
  in_play COLUMNS HEIGHT g -> selectedPiece g = None ->
  a < COLUMNS -> b < COLUMNS -> a <> b ->
  (exists c, slot (state g) a 0 = Some (Color c)) ->
  slot (state g) b (HEIGHT - 1) = Some Null ->
  handleClicks HEIGHT [a; b; b; a] g = Done tt g.
Proof.
  intros ((Hlen & Hrest & _) & _)%in_play_ok Hsel Ha Hb Hab [c Hball] Hroom.
  destruct (lookup_lt_is_Some_2 (state g) a ltac:(lia)) as [col Hcola].
  destruct (Forall_lookup_1 _ _ _ _ Hrest Hcola) as (A & HA & ->).
  destruct (lookup_lt_is_Some_2 (state g) b ltac:(lia)) as [col Hcolb].
  destruct (Forall_lookup_1 _ _ _ _ Hrest Hcolb) as (B & HB & ->).
  unfold slot in Hball, Hroom. rewrite Hcola in Hball. rewrite Hcolb in Hroom.
  cbn [fmap option_fmap option_map] in Hball, Hroom.
  injection Hball as Hball. injection Hroom as Hroom.
  assert (HB' : length B < HEIGHT).
  { destruct (decide (length B < HEIGHT)) as [|Hfull]; [done | exfalso].
    destruct HEIGHT as [|h].
    - by rewrite array_get_past_end in Hroom by (rewrite tower_length; lia).
    - destruct (lookup_lt_is_Some_2 B h ltac:(lia)) as [y Hy].
      replace (S h - 1) with h in Hroom by lia.
      by rewrite (array_get_lookup _ _ _ (tower_lookup_ball _ _ _ _ Hy)) in Hroom. }
  destruct A as [|x A _] using rev_ind.
  { exfalso. destruct HEIGHT as [|h]; [lia|].
    by rewrite (array_get_lookup _ 0 Null) in Hball
      by (apply tower_lookup_null; cbn; lia). }
  rewrite length_app in HA. cbn [length] in HA.
  destruct g as [st ref sel]. cbn [state referenceState selectedPiece] in *. subst sel.
  cbn [handleClicks]. unfold exec_bind at 1.
  rewrite (first_click_selects HEIGHT _ a A x) by (done || lia).
  cbn [state referenceState]. unfold exec_bind at 1.
  rewrite (second_click_moves HEIGHT _ a b A x B) by (done || lia).
  cbn [state referenceState]. unfold exec_bind at 1.
  rewrite (first_click_selects HEIGHT _ b B x); [| done | | done]; cbn [state].
  2:{ rewrite list_lookup_insert_ne by done.
      apply list_lookup_insert_eq. by eapply lookup_lt_Some. }
  cbn [referenceState]. unfold exec_bind at 1.
  rewrite (second_click_moves HEIGHT _ b a B x A); cbn [state]; [| done | done | | done | | lia].
  2:{ rewrite list_lookup_insert_ne by done.
      apply list_lookup_insert_eq. by eapply lookup_lt_Some. }
  2:{ apply list_lookup_insert_eq. rewrite length_insert. by eapply lookup_lt_Some. }
  cbn [referenceState]. unfold exec_ret. do 2 f_equal.
  rewrite list_insert_insert_eq.
  rewrite (list_insert_insert_ne _ a b) by done.
  rewrite list_insert_insert_eq.
  rewrite (list_insert_id st a) by done.
  by rewrite list_insert_id.
Qed.

(** X18: in a game in play with no piece selected, two clicks on the same
    column of the board complete and leave both boards and the selection
    exactly as they were: on an empty column both clicks do nothing, on
    another the first selects its topmost ball and the second lets go of
    it. *)
Theorem double_click_restores COLUMNS HEIGHT g a :
  in_play COLUMNS HEIGHT g -> selectedPiece g = None -> a < COLUMNS ->
  handleClicks HEIGHT [a; a] g = Done tt g.
Proof.
  intros ((Hlen & Hrest & _) & _)%in_play_ok Hsel Ha.
  destruct (lookup_lt_is_Some_2 (state g) a ltac:(lia)) as [col Hcol].
  destruct (Forall_lookup_1 _ _ _ _ Hrest Hcol) as (A & HA & ->).
  destruct g as [st ref sel]. cbn [state referenceState selectedPiece] in *. subst sel.
  cbn [handleClicks]. unfold exec_bind at 1.
  destruct A as [|x A _] using rev_ind.
  - assert (Hnothing : handleClick HEIGHT a (Game st ref None)
                       = Done tt (Game st ref None)).
    { unfold handleClick. cbn [selectedPiece].
      unfold handleFirstClick, exec_bind.
      by rewrite (findTopPiece_tower HEIGHT (Game st ref None) a [] Hcol) by done. }
    rewrite Hnothing. unfold exec_bind. by rewrite Hnothing.
  - rewrite length_app in HA. cbn [length] in HA.
    rewrite (first_click_selects HEIGHT _ a A x) by (done || lia).
    cbn [state referenceState]. unfold exec_bind, handleClick. cbn [selectedPiece].
    unfold handleSecondClick, exec_bind, selected. cbn [selectedPiece column].
    by rewrite decide_True by done.
Qed.

Lemma towers_eq_slots COLUMNS HEIGHT (b b' : board) :
  length b = COLUMNS -> length b' = COLUMNS ->
  Forall (resting HEIGHT) b -> Forall (resting HEIGHT) b' ->
  (forall i j, i < COLUMNS -> j < HEIGHT -> slot b i j = slot b' i j) ->
  b = b'.
Proof.
  intros Hlen Hlen' Hrest Hrest' Hslots.
  apply list_eq_same_length with COLUMNS; [done.. |].
  intros i column column' Hi Hcol Hcol'.
  destruct (Forall_lookup_1 _ _ _ _ Hrest Hcol) as (balls & Hb & Hc).
  destruct (Forall_lookup_1 _ _ _ _ Hrest' Hcol') as (balls' & Hb' & Hc').
  apply list_eq_same_length with HEIGHT;
    [subst; by apply tower_length | subst; by apply tower_length |].
  intros j v v' Hj Hv Hv'.
  specialize (Hslots i j Hi Hj). unfold slot in Hslots.
  rewrite Hcol, Hcol' in Hslots. cbn [fmap option_fmap option_map] in Hslots.
  rewrite (array_get_lookup _ _ _ Hv), (array_get_lookup _ _ _ Hv') in Hslots.
  congruence.
Qed.

(** X15: in a game in play [haveWon] completes, changes no variable, and
    returns [true] exactly when the board is the reference board, slot for
    slot. *)
Theorem haveWon_iff_boards_equal COLUMNS HEIGHT g :
  in_play COLUMNS HEIGHT g ->
  exists won,
    haveWon COLUMNS HEIGHT g = Done won g
    /\ (won = true <-> state g = referenceState g).
Proof.
  intros ((Hlen & Hrest & _) & Hlen' & Hrest' & _)%in_play_ok.
  destruct (haveWon_columns_spec HEIGHT g COLUMNS 0) as (won & Hwon & Hiff);
    [lia | lia |].
  exists won. split; [done|]. rewrite Hiff. split.
  - intros Hslots. apply (towers_eq_slots COLUMNS HEIGHT); [done.. |].
    intros i j Hi Hj. apply Hslots; lia.
  - by intros ->.
Qed.

(** ** What a click never writes *)

Lemma keeps_reference_ret {A} (a : A) : keeps_reference (exec_ret a).
Proof. by intros g. Qed.

Lemma keeps_reference_bind {A B} (m : Exec A) (k : A -> Exec B) :
  keeps_reference m -> (forall a, keeps_reference (k a)) ->
  keeps_reference (exec_bind m k).
Proof.
  intros Hm Hk g. unfold exec_bind. specialize (Hm g).
  destruct (m g) as [a g'|e g']; cbn [variables_after] in Hm; [|done].
  destruct Hm as [Href Hlen], (Hk a g') as [Href' Hlen']. split; congruence.
Qed.

Lemma keeps_reference_read_cell b columnIndex i :
  keeps_reference (read_cell b columnIndex i).
Proof. intros g. unfold read_cell. by destruct (b g !! columnIndex). Qed.

Lemma keeps_reference_write_cell columnIndex i v :
  keeps_reference (write_cell columnIndex i v).
Proof.
  intros g. unfold write_cell. destruct (state g !! columnIndex); [|done].
  cbn [variables_after referenceState state]. by rewrite length_insert.
Qed.

Lemma keeps_reference_set_selectedPiece p : keeps_reference (set_selectedPiece p).
Proof. by intros g. Qed.

Lemma keeps_reference_selected : keeps_reference selected.
Proof. intros g. unfold selected. by destruct (selectedPiece g). Qed.

Create HintDb frame.

#[local] Hint Resolve keeps_reference_ret keeps_reference_read_cell
  keeps_reference_write_cell keeps_reference_set_selectedPiece
  keeps_reference_selected : frame.

Ltac frame_step :=
  repeat first
    [ apply keeps_reference_bind; [|intros ?]
    | solve [auto with frame]
    | match goal with |- keeps_reference (if ?c then _ else _) => destruct c end ].

Lemma keeps_reference_findEmptyRow_from columnIndex remaining i :
  keeps_reference (findEmptyRow_from columnIndex remaining i).
Proof.
  revert i. induction remaining as [|remaining IH]; intros i;
    cbn [findEmptyRow_from]; frame_step.
Qed.

Lemma keeps_reference_findTopPiece_below columnIndex n :
  keeps_reference (findTopPiece_below columnIndex n).
Proof. induction n as [|n IH]; cbn [findTopPiece_below]; frame_step. Qed.

#[local] Hint Resolve keeps_reference_findEmptyRow_from
  keeps_reference_findTopPiece_below : frame.

Lemma keeps_reference_handleClick HEIGHT columnIndex :
  keeps_reference (handleClick HEIGHT columnIndex).
Proof.
  assert (Hfirst : keeps_reference (handleFirstClick HEIGHT columnIndex))
    by (unfold handleFirstClick, findTopPiece; frame_step).
  assert (Hsecond : keeps_reference (handleSecondClick HEIGHT columnIndex))
    by (unfold handleSecondClick, findEmptyRow; frame_step).
  intros g. unfold handleClick.
  destruct (selectedPiece g); [apply Hsecond | apply Hfirst].
Qed.

(** X16: no sequence of clicks writes the reference board or changes the
    number of columns of the board, whatever the variables hold, whatever
    columns are clicked, and whether the clicks complete or one of them
    throws. *)
Theorem clicks_never_write_the_reference HEIGHT columnIndexes g :
  referenceState (variables_after (handleClicks HEIGHT columnIndexes g))
    = referenceState g
  /\ length (state (variables_after (handleClicks HEIGHT columnIndexes g)))
     = length (state g).
Proof.
  revert g. change (keeps_reference (handleClicks HEIGHT columnIndexes)).
  induction columnIndexes as [|columnIndex rest IH]; cbn [handleClicks].
  - apply keeps_reference_ret.
  - apply keeps_reference_bind; [apply keeps_reference_handleClick | by intros _].
Qed.

(** ** The text for the console *)

Lemma append_cons c (a b : string) : String c a +:+ b = String c (a +:+ b).
Proof. reflexivity. Qed.

Lemma append_assoc (a b c : string) : (a +:+ b) +:+ c = a +:+ (b +:+ c).
Proof.
  induction a as [|x a IH]; [done|]. rewrite !append_cons. by rewrite IH.
Qed.

(** A token ends where the first comma or bracket stands. *)
Lemma token_split (t t' r r' : string) c c' :
  plain t = true -> plain t' = true -> plain (String c "") = false ->
  plain (String c' "") = false ->
  t +:+ String c r = t' +:+ String c' r' -> t = t' /\ String c r = String c' r'.
Proof.
  intros Ht Ht' Hc Hc'. revert t' Ht'.
  induction t as [|x t IH]; intros [|x' t'] Ht'.
  - done.
  - change ("" +:+ String c r) with (String c r).
    rewrite append_cons. intros [= -> _]. cbn [plain] in Ht', Hc.
    rewrite andb_true_r in Hc. rewrite Hc in Ht'. done.
  - change ("" +:+ String c' r') with (String c' r').
    rewrite append_cons. intros [= -> _]. cbn [plain] in Ht, Hc'.
    rewrite andb_true_r in Hc'. rewrite Hc' in Ht. done.
  - rewrite !append_cons. intros [= -> Heq].
    cbn [plain] in Ht, Ht'. apply andb_prop in Ht as [_ Ht], Ht' as [_ Ht'].
    destruct (IH Ht t' Ht' Heq) as [-> ?]. done.
Qed.

Lemma plain_bracket r : plain (String "]"%char r) = false.
Proof. reflexivity. Qed.

Lemma plain_comma r : plain (String ","%char r) = false.
Proof. reflexivity. Qed.

Lemma concat_one sep (x : string) : String.concat sep [x] = x.
Proof. reflexivity. Qed.

Lemma concat_more sep (x y : string) l :
  String.concat sep (x :: y :: l) = x +:+ sep +:+ String.concat sep (y :: l).
Proof. reflexivity. Qed.

(** The codes of a column, joined and closed by a bracket, tell the codes
    and what follows the bracket. *)
Lemma codes_inj (l l' : list string) (r r' : string) :
  Forall token l -> Forall token l' ->
  String.concat ", " l +:+ String "]"%char r
    = String.concat ", " l' +:+ String "]"%char r' ->
  l = l' /\ r = r'.
Proof.
  intros Hl. revert l'. induction Hl as [|t l [Ht Hne] Hl IH]; intros l' Hl'.
  - destruct Hl' as [|t' l' [Ht' Hne'] Hl']; [by intros [= ->]|].
    destruct t' as [|c t']; [done|].
    destruct l'; rewrite ?concat_one, ?concat_more, ?append_assoc, !append_cons;
      intros [= <- _]; by rewrite plain_bracket in Ht'.
  - destruct Hl' as [|t' l' [Ht' Hne'] Hl'].
    { destruct t as [|c t]; [done|].
      destruct l; rewrite ?concat_one, ?concat_more, ?append_assoc, !append_cons;
        intros [= -> _]; by rewrite plain_bracket in Ht. }
    destruct l as [|u l], l' as [|u' l'];
      rewrite ?concat_one, ?concat_more, ?append_assoc;
      try change (", " +:+ ?x) with (String ","%char (String " "%char x)).
    + intros [-> [= ->]]%token_split; done.
    + intros [_ [=]]%token_split; done.
    + intros [_ [=]]%token_split; done.
    + intros [-> [= Heq]]%token_split; [|done..].
      destruct (IH (u' :: l') Hl' Heq) as [-> ->]. done.
Qed.

(** The lines of a board, joined and closed by a bracket, tell the codes of
    every line. *)
Lemma code_lines_inj (L L' : list (list string)) :
  Forall (Forall token) L -> Forall (Forall token) L' ->
  String.concat line_separator (code_line <$> L) +:+ "])"
    = String.concat line_separator (code_line <$> L') +:+ "])" ->
  L = L'.
Proof.
  intros HL. revert L'. induction HL as [|l L Hl HL IH]; intros L' HL'.
  - destruct HL' as [|l' L' Hl' HL']; [done|]. cbn [fmap list_fmap].
    unfold code_line at 1.
    destruct L'; cbn [fmap list_fmap];
      rewrite ?concat_one, ?concat_more, ?append_assoc; intros [=].
  - destruct HL' as [|l' L' Hl' HL'].
    { cbn [fmap list_fmap]. unfold code_line at 1.
      destruct L; cbn [fmap list_fmap];
        rewrite ?concat_one, ?concat_more, ?append_assoc; intros [=]. }
    cbn [fmap list_fmap]. unfold code_line at 1 3.
    destruct L as [|m L], L' as [|m' L']; cbn [fmap list_fmap];
      rewrite ?concat_one, ?concat_more, ?append_assoc;
      intros [= Heq]; change ("]" +:+ ?x) with (String "]"%char x) in Heq;
      apply codes_inj in Heq as [-> Heq]; try done.
    apply (inj (String.app line_separator)) in Heq.
    by rewrite (IH (m' :: L') HL' Heq).
Qed.

Lemma digits_plain s : digits s = true -> plain s = true.
Proof.
  induction s as [|c s IH]; [done|]. cbn [digits plain].
  intros [[Hlo Hhi]%andb_prop Hs]%andb_prop. rewrite (IH Hs), andb_true_r.
  apply Nat.leb_le in Hlo, Hhi.
  destruct (Ascii.eqb_spec c ","%char) as [->|_]; [vm_compute in Hlo; lia|].
  destruct (Ascii.eqb_spec c "]"%char) as [->|_]; [vm_compute in Hhi; lia | done].
Qed.

Lemma digits_pretty_N_char x : digits (String (pretty_N_char x) "") = true.
Proof. unfold pretty_N_char. by repeat case_match. Qed.

Lemma digits_pretty_N_go x s :
  digits s = true -> s <> "" ->
  digits (pretty_N_go x s) = true /\ pretty_N_go x s <> "".
Proof.
  revert s. induction (N.lt_wf_0 x) as [x _ IH]; intros s Hs Hne.
  assert (x = 0 \/ 0 < x)%N as [->|Hx] by lia; [by rewrite pretty_N_go_0|].
  rewrite pretty_N_go_step by done. apply IH; [by apply N.div_lt | | done].
  pose proof (digits_pretty_N_char (x `mod` 10)) as Hc.
  cbn [digits] in *. rewrite andb_true_r in Hc. by rewrite Hc, Hs.
Qed.

Lemma digits_pretty_N (x : N) : digits (pretty x) = true /\ pretty x <> "".
Proof.
  unfold pretty, pretty_N. case_decide as Hx; [done|].
  rewrite pretty_N_go_step by lia. apply digits_pretty_N_go; [|done].
  apply digits_pretty_N_char.
Qed.

Lemma digits_pretty_Z (z : Z) :
  (0 <= z)%Z -> digits (pretty z) = true /\ pretty z <> "".
Proof.
  destruct z as [|p|p]; [done | | lia]. intros _.
  apply (digits_pretty_N (N.pos p)).
Qed.

Lemma indexOf_from_range elements i c :
  indexOf_from elements i c = (-1)%Z \/ (Z.of_nat i <= indexOf_from elements i c)%Z.
Proof.
  revert i. induction elements as [|e rest IH]; intros i; [by left|].
  cbn [indexOf_from]. case_decide; [right; lia|].
  destruct (IH (S i)) as [->|?]; [by left | right; lia].
Qed.

Lemma indexOf_from_found elements i c :
  c ∈ elements ->
  (Z.of_nat i <= indexOf_from elements i c)%Z
  /\ elements !! (Z.to_nat (indexOf_from elements i c) - i) = Some c.
Proof.
  revert i. induction elements as [|e rest IH]; intros i Hc.
  { by apply elem_of_nil in Hc. }
  cbn [indexOf_from]. case_decide as He.
  - subst e. split; [lia|]. by rewrite Nat2Z.id, Nat.sub_diag.
  - apply elem_of_cons in Hc as [->|Hc]; [done|].
    destruct (IH (S i) Hc) as [Hle Hlook]. split; [lia|].
    replace (Z.to_nat (indexOf_from rest (S i) c) - i)
      with (S (Z.to_nat (indexOf_from rest (S i) c) - S i)) by lia.
    exact Hlook.
Qed.

Lemma code_of_token elements v : token (code_of elements v).
Proof.
  unfold code_of. destruct (is_null v); [done|]. cbn [orb].
  destruct (Z.eqb_spec (indexOf elements v) (-1)) as [|Hne]; [done|].
  assert (Hpos : (0 <= indexOf elements v)%Z).
  { destruct v as [| |c]; [done.. |]. cbn [indexOf] in *.
    destruct (indexOf_from_range elements 0 c); [done | lia]. }
  destruct (digits_pretty_Z _ Hpos) as [Hd Hn].
  split; [by apply digits_plain | done].
Qed.

Lemma code_of_color elements c :
  c ∈ elements ->
  code_of elements (Color c) = pretty (indexOf_from elements 0 c)
  /\ digits (code_of elements (Color c)) = true.
Proof.
  intros Hc. destruct (indexOf_from_found elements 0 c Hc) as [Hpos _].
  unfold code_of. cbn [is_null orb indexOf].
  destruct (Z.eqb_spec (indexOf_from elements 0 c) (-1)) as [|_]; [lia|].
  split; [done | by apply digits_pretty_Z].
Qed.

Lemma code_of_inj elements v v' :
  in_colors elements v -> in_colors elements v' ->
  code_of elements v = code_of elements v' -> v = v'.
Proof.
  intros [->|(c & -> & Hc)] [->|(c' & -> & Hc')]; [done | | |].
  - destruct (code_of_color elements c' Hc') as [_ Hd].
    intros Heq. rewrite <- Heq in Hd. done.
  - destruct (code_of_color elements c Hc) as [_ Hd].
    intros Heq. rewrite Heq in Hd. done.
  - destruct (code_of_color elements c Hc) as [-> _].
    destruct (code_of_color elements c' Hc') as [-> _].
    intros Heq%(inj pretty).
    destruct (indexOf_from_found elements 0 c Hc) as [_ Hlook].
    destruct (indexOf_from_found elements 0 c' Hc') as [_ Hlook'].
    rewrite Heq in Hlook. congruence.
Qed.

Lemma generatePythonCode_lines (state : board) elements :
  generatePythonCode state elements
  = "State([" +:+ String.concat line_separator
                    (code_line <$> (fmap (code_of elements) <$> state)) +:+ "])".
Proof. unfold generatePythonCode. cbv zeta. by rewrite <- list_fmap_compose. Qed.

(** A board that [initializeState] returns holds [null] or one of its
    elements in every slot. *)
Lemma dealt_in_colors COLUMNS HEIGHT elements b :
  dealt COLUMNS HEIGHT elements b -> Forall (Forall (in_colors elements)) b.
Proof.
  intros (_ & Hrest & Hcolors)%dealt_towers.
  apply Forall_forall. intros column Hcolumn.
  destruct (proj1 (Forall_forall _ _) Hrest column Hcolumn) as (balls & _ & ->).
  apply Forall_forall. intros v Hv. unfold tower in Hv.
  apply elem_of_app in Hv as [(c & -> & Hc)%list_elem_of_fmap|[-> _]%elem_of_replicate];
    [right | by left].
  exists c. split; [done|]. rewrite <- Hcolors. unfold board_colors.
  apply list_elem_of_bind. exists (tower HEIGHT balls).
  split; [|done]. by rewrite tower_colors.
Qed.

(** X19: the text that [generatePythonCode] writes for a board whose slots
    hold [null] or one of the [elements] tells the board: two such boards
    with the same text are the same board, column for column and slot for
    slot. *)
Theorem generatePythonCode_tells_the_board elements (b b' : board) :
  Forall (Forall (in_colors elements)) b -> Forall (Forall (in_colors elements)) b' ->
  generatePythonCode b elements = generatePythonCode b' elements ->
  b = b'.
Proof.
  intros Hb Hb'. rewrite !generatePythonCode_lines.
  intros Heq%(inj (String.app "State([")).
  apply code_lines_inj in Heq.
  - revert b' Hb' Heq. induction Hb as [|column b Hcolumn Hb IH];
      intros [|column' b'] Hb' Heq; [done.. |].
    apply Forall_cons in Hb' as [Hcolumn' Hb'].
    cbn [fmap list_fmap] in Heq. injection Heq as Hcol Hrest.
    f_equal; [|by apply IH].
    clear -Hcolumn Hcolumn' Hcol. revert column' Hcolumn' Hcol.
    induction Hcolumn as [|v column Hv Hcolumn IH];
      intros [|v' column'] Hcolumn' Heq; [done.. |].
    apply Forall_cons in Hcolumn' as [Hv' Hcolumn'].
    cbn [fmap list_fmap] in Heq. injection Heq as Hcode Hrest.
    f_equal; [by eapply code_of_inj | by apply IH].
  - apply Forall_fmap, Forall_true. intros column.
    apply Forall_fmap, Forall_true. intros v. apply code_of_token.
  - apply Forall_fmap, Forall_true. intros column.
    apply Forall_fmap, Forall_true. intros v. apply code_of_token.
Qed.

(** * The properties at work on the game of six colours *)

Lemma chooseBallsInColumn_returns_partition_witness :
  exists partition calls',
    chooseBallsInColumn (fun _ => seven_eighths) 3 3 6 4 0
      = (Return partition, calls')
    /\ Z.of_nat (length partition) = 3%Z
    /\ Forall (fun n => (0 <= n <= 4)%Z) partition
    /\ Zsum partition = 6%Z.
Proof.
  apply (chooseBallsInColumn_returns_partition (fun _ => seven_eighths) 3 3 6 4 0);
    [lia | lia | lia | unfold Qle; simpl; lia | lia].
Defined.

Lemma chooseBallsInColumn_cannot_hold_witness :
  chooseBallsInColumn (fun _ => zero_sample) 1 3 13 4 0
    = (Throw (Error "Cannot hold all the balls"), 0).
Proof.
  apply (chooseBallsInColumn_cannot_hold (fun _ => zero_sample) 0 3 13 4 0);
    [lia | unfold Qlt; simpl; lia].
Defined.

Lemma clicks_keep_columns_filled_from_the_bottom_witness :
  exists g',
    handleClicks 4 [0; 2; 0; 2; 1; 2] dealt_game = Done tt g'
    /\ Forall (fun column =>
                 (exists n, filled_run 4 n column) /\ no_ball_above_empty column)
              (state g').
Proof.
  apply (clicks_keep_columns_filled_from_the_bottom
           (fun _ => zero_sample) 3 six_colors 3 4 0 dealt_board 11 dealt_board
           [0; 2; 0; 2; 1; 2]);
    [reflexivity | repeat (constructor; [lia|]); constructor].
Defined.

Lemma click_on_full_column_is_rejected_witness :
  findEmptyRow 4 0 picked_game = Done (-1)%Z picked_game
  /\ handleClick 4 0 picked_game = Done tt dealt_game.
Proof.
  apply (click_on_full_column_is_rejected 4 picked_game (Piece 1 1) 0
           [Color "f"; Color "a"; Color "b"; Color "c"]);
    [reflexivity | simpl; lia | reflexivity | reflexivity
    | repeat (constructor; [discriminate|]); constructor].
Defined.

Lemma haveWon_iff_boards_agree_witness :
  exists won,
    haveWon 3 4 dealt_game = Done won dealt_game
    /\ (won = true <->
        forall i j, i < 3 -> j < 4 ->
          slot (state dealt_game) i j = slot (referenceState dealt_game) i j).
Proof.
  apply (haveWon_iff_boards_agree 3 4 dealt_game); simpl; lia.
Defined.

Lemma initializeState_round_trip_witness :
  exists partition calls1,
    chooseBallsInColumn (fun _ => zero_sample) 3 3
      (Z.of_nat (length six_colors)) 4 calls1 = (Return partition, 11)
    /\ Zsum partition = Z.of_nat (length six_colors)
    /\ Forall2 (fun column n => filled_run (Z.to_nat 4) (Z.to_nat n) column)
         dealt_board partition
    /\ (fun column => Z.of_nat (count_filled column)) <$> dealt_board = partition.
Proof.
  apply (initializeState_round_trip (fun _ => zero_sample) 3 six_colors 3 4 0
           dealt_board 11).
  reflexivity.
Defined.


Lemma click_keeps_the_balls_witness :
  exists g',
    handleClick 4 2 picked_game = Done tt g'
    /\ board_colors (state g') ≡ₚ board_colors (state picked_game)
    /\ click_effect 4 picked_game 2 g'.
Proof.
  apply (click_keeps_the_balls
           (fun _ => zero_sample) 3 six_colors 3 4 0 dealt_board 11 dealt_board
           [1] picked_game 2);
    [reflexivity | repeat (constructor; [lia|]); constructor | reflexivity | lia].
Defined.

(** * More of the script at work on the game of six colours *)

Lemma dealt_board_dealt : dealt 3 4 six_colors dealt_board.
Proof. by exists (fun _ => zero_sample), 3, 0, 11. Qed.

Lemma dealt_game_in_play : in_play 3 4 dealt_game.
Proof.
  exists six_colors, dealt_board, [].
  split_and!; [apply dealt_board_dealt.. | constructor | reflexivity].
Qed.

Lemma picked_game_in_play : in_play 3 4 picked_game.
Proof.
  exists six_colors, dealt_board, [1].
  split_and!; [apply dealt_board_dealt.. | repeat constructor | reflexivity].
Qed.

Lemma six_colors_NoDup : NoDup six_colors.
Proof. by apply (bool_decide_unpack _). Qed.

Lemma shuffle_moves_every_element_witness :
  2 <= length six_colors
  /\ (shuffle (fun _ => zero_sample) six_colors 0).1 !! 0 <> six_colors !! 0.
Proof.
  split; [cbn; lia|].
  apply shuffle_moves_every_element; [apply six_colors_NoDup | cbn; lia | cbn; lia].
Defined.



Lemma hslToHex_six_digits_witness :
  String.length (hslToHex 120 100 50) = 7
  /\ exists r g b : Z,
       hslToHex 120 100 50 = "#" +:+ hex2 r +:+ hex2 g +:+ hex2 b
       /\ (0 <= r <= 255)%Z /\ (0 <= g <= 255)%Z /\ (0 <= b <= 255)%Z.
Proof. apply (hslToHex_six_digits 120 100 50); lra. Defined.

Lemma chooseBallsInColumn_returns_only_partitions_witness :
  chooseBallsInColumn (fun _ => zero_sample) 3 3 6 4 5 = (Return [4%Z; 2%Z; 0%Z], 11)
  /\ (1 <= 3)%Z /\ (0 <= 4)%Z /\ (6 <= 4 * 3)%Z
  /\ is_partition 3 6 4 [4%Z; 2%Z; 0%Z].
Proof.
  split; [reflexivity|].
  apply (chooseBallsInColumn_returns_only_partitions
           (fun _ => zero_sample) 3 3 6 4 5 [4%Z; 2%Z; 0%Z] 11); [lia | reflexivity].
Defined.

Lemma initializeState_fits_or_throws_witness :
  initializeState (fun _ => zero_sample) 1 six_colors 1 4 0
  = (Throw (Error "Cannot hold all the balls"), 0 + (length six_colors - 1)).
Proof.
  exact (initializeState_fits_or_throws (fun _ => zero_sample) 1 six_colors 1 4 0
           ltac:(lia) ltac:(lia) ltac:(cbn; lia)).
Defined.

Lemma initializeState_deals_every_element_witness :
  Z.of_nat (length dealt_board) = 3%Z
  /\ Forall (fun column => Z.of_nat (length column) = 4%Z /\ Undefined ∉ column)
       dealt_board
  /\ board_colors dealt_board ≡ₚ six_colors.
Proof.
  apply (initializeState_deals_every_element
           (fun _ => zero_sample) 3 six_colors 3 4 0 dealt_board 11).
  reflexivity.
Defined.


Lemma findTopPiece_highest_ball_witness :
  exists r,
    findTopPiece 4 1 dealt_game = Done r dealt_game
    /\ (forall i, (r < Z.of_nat i)%Z -> i < 4 ->
          array_get [Color "d"; Color "e"; Null; Null] (Z.of_nat i) = Null)
    /\ (r = (-1)%Z
        \/ (0 <= r < Z.of_nat 4)%Z
           /\ array_get [Color "d"; Color "e"; Null; Null] r <> Null).
Proof. apply (findTopPiece_highest_ball 4 dealt_game 1). reflexivity. Defined.

Lemma findEmptyRow_lowest_empty_witness :
  exists r,
    findEmptyRow 4 1 dealt_game = Done r dealt_game
    /\ (r = (-1)%Z
        /\ (forall k, k <= 4 ->
              array_get [Color "d"; Color "e"; Null; Null] (Z.of_nat k) <> Null)
        \/ (0 <= r <= Z.of_nat 4)%Z
           /\ array_get [Color "d"; Color "e"; Null; Null] r = Null
           /\ forall k, (Z.of_nat k < r)%Z ->
                array_get [Color "d"; Color "e"; Null; Null] (Z.of_nat k) <> Null)
    /\ (length [Color "d"; Color "e"; Null; Null] <= 4 -> (r < Z.of_nat 4)%Z).
Proof. apply (findEmptyRow_lowest_empty 4 dealt_game 1). reflexivity. Defined.

Lemma click_outside_the_board_throws_witness :
  handleClick 4 3 picked_game = Raise TypeError picked_game.
Proof.
  apply (click_outside_the_board_throws 3 4 picked_game 3);
    [apply picked_game_in_play | lia | lia].
Defined.

Lemma selected_piece_is_topmost_ball_witness :
  column (Piece 1 1) < 3 /\ (0 <= row (Piece 1 1) < Z.of_nat 4)%Z
  /\ findTopPiece 4 (column (Piece 1 1)) picked_game
     = Done (row (Piece 1 1)) picked_game
  /\ exists c, slot (state picked_game) (column (Piece 1 1))
                 (Z.to_nat (row (Piece 1 1))) = Some (Color c).
Proof.
  apply (selected_piece_is_topmost_ball 3 4 picked_game (Piece 1 1));
    [apply picked_game_in_play | reflexivity].
Defined.

Lemma move_and_back_restores_witness :
  handleClicks 4 [1; 2; 2; 1] dealt_game = Done tt dealt_game.
Proof.
  apply (move_and_back_restores 3 4 dealt_game 1 2);
    [apply dealt_game_in_play | reflexivity | lia | lia | lia
    | by exists "d" | reflexivity].
Defined.

Lemma haveWon_iff_boards_equal_witness :
  exists won,
    haveWon 3 4 picked_game = Done won picked_game
    /\ (won = true <-> state picked_game = referenceState picked_game).
Proof. apply (haveWon_iff_boards_equal 3 4 picked_game), picked_game_in_play. Defined.

Lemma board_holds_the_reference_colours_witness :
  board_colors (state picked_game) ≡ₚ board_colors (referenceState picked_game)
  /\ length (state picked_game) = length (referenceState picked_game).
Proof.
  apply (board_holds_the_reference_colours 3 4 picked_game), picked_game_in_play.
Defined.

Lemma double_click_restores_witness :
  handleClicks 4 [2; 2] dealt_game = Done tt dealt_game.
Proof.
  apply (double_click_restores 3 4 dealt_game 2);
    [apply dealt_game_in_play | reflexivity | lia].
Defined.

Lemma generatePythonCode_tells_the_board_witness :
  generatePythonCode dealt_board six_colors
    = generatePythonCode (state picked_game) six_colors
  /\ dealt_board = state picked_game.
Proof.
  split; [reflexivity|].
  apply (generatePythonCode_tells_the_board six_colors);
    [apply (dealt_in_colors 3 4), dealt_board_dealt
    | apply (dealt_in_colors 3 4), dealt_board_dealt | reflexivity].
Defined.
